(** * LocalFileName: path naming for DESI Y1 fiber-collision products

    A shallow embedding of [bin/local_file_manager.py].  The class
    [LocalFileName] keeps its attributes in the instance dictionary; the
    three methods [update], [get_path] and [set_default_config] are
    embedded as computations over a world made of the Python heap (the
    mutable lists and dicts a caller may share with the instance) and of
    the instance dictionary. *)

From Stdlib Require Import ZArith Floats.SpecFloat DecimalString.
From stdpp Require Import gmap strings list fin_maps.

Local Open Scope string_scope.
Local Open Scope Z_scope.

(** ** Binary64 numbers

    A Python [float] is an IEEE-754 binary64; it is modelled by the
    standard library's [spec_float] at precision 53. *)

Module Float64.

Definition prec : Z := 53.
Definition emax : Z := 1024.

(** The float nearest to an integer ([float(n)], round half to even). *)
Definition of_Z (n : Z) : spec_float := binary_normalize prec emax n 0 false.

(** The float a decimal literal [num/den] denotes: the correctly rounded
    quotient of two exactly representable integers. *)
Definition of_decimal (num den : Z) : spec_float :=
  SFdiv prec emax (of_Z num) (of_Z den).

Definition eqb (x y : spec_float) : bool := SFeqb x y.

(** [bool(x)] on a float: every float but the two zeros is true. *)
Definition nonzero (x : spec_float) : bool :=
  match x with
  | S754_zero _ => false
  | _ => true
  end.

(** [n == x] for a Python int [n] and a float [x], compared exactly. *)
Definition eqb_Z (n : Z) (x : spec_float) : bool :=
  match x with
  | S754_zero _ => n =? 0
  | S754_finite s m e =>
      let mz := if s then Z.neg m else Z.pos m in
      if 0 <=? e then n =? mz * 2 ^ e
      else (mz mod 2 ^ (- e) =? 0) && (n =? mz / 2 ^ (- e))
  | _ => false
  end.

(** Rounding of the non-negative rational [num/den] to the nearest
    integer, ties to even. *)
Definition round_half_even (num den : Z) : Z :=
  let q := num / den in
  let r := num mod den in
  match 2 * r ?= den with
  | Lt => q
  | Gt => q + 1
  | Eq => if Z.even q then q else q + 1
  end.

(** [m * 2^e * 10^d], rounded to an integer. *)
Definition scaled (d : nat) (m : positive) (e : Z) : Z :=
  let p := Z.pos m * 10 ^ Z.of_nat d in
  if 0 <=? e then p * 2 ^ e else round_half_even p (2 ^ (- e)).

Definition string_of_Z (n : Z) : string := NilZero.string_of_int (Z.to_int n).

(** Left padding with zeros up to [d] characters. *)
Definition pad0 (d : nat) (s : string) : string :=
  String.concat "" (replicate (d - String.length s) "0") ++ s.

(** ['{:.df}'.format(x)]: fixed-point notation with [d] digits after the
    point, correctly rounded from the exact binary value. *)
Definition format_f (d : nat) (x : spec_float) : string :=
  let sign (s : bool) := if s then "-" else "" in
  let point (n : Z) :=
    string_of_Z (n / 10 ^ Z.of_nat d) ++
    match d with
    | O => ""
    | _ => "." ++ pad0 d (string_of_Z (n mod 10 ^ Z.of_nat d))
    end in
  match x with
  | S754_nan => "nan"
  | S754_infinity s => sign s ++ "inf"
  | S754_zero s => sign s ++ point 0
  | S754_finite s m e => sign s ++ point (scaled d m e)
  end.

End Float64.

(** ** Python values, the heap and the instance

    Immutable values are carried as they are; a list or a dict is a
    reference into the heap, so that two names may share one object.
    Dicts keep their keys (strings, as everywhere in the source) in
    insertion order. *)

#[warnings="-register-all"]
Inductive value : Type :=
| VNone
| VBool (b : bool)
| VInt (n : Z)
| VFloat (x : spec_float)
| VStr (s : string)
| VTuple (vs : list value)
| VRef (l : nat).

Inductive obj : Type :=
| OList (vs : list value)
| ODict (kvs : list (string * value)).

(** The world a method runs in: the heap and [self.__dict__]. *)
Record world : Type := World {
  heap : list obj;
  self : gmap string value
}.

Inductive exn : Type :=
| ValueError (msg : string)
| TypeError
| NameError (name : string)
| UnboundLocalError (name : string)
| AttributeError (name : string)
| KeyError (key : string)
| IndexError
| OverflowError
| SystemError.

(** Outcome of an expression: a value or a raised exception. *)
Inductive res (A : Type) : Type :=
| Return (a : A)
| Raise (e : exn).
Arguments Return {A} a.
Arguments Raise {A} e.

#[global] Instance res_ret : MRet res := fun A a => Return a.
#[global] Instance res_bind : MBind res := fun A B f m =>
  match m with
  | Return a => f a
  | Raise e => Raise e
  end.

(** Outcome of a statement: the world it leaves, and a value or an
    exception.  A raised exception keeps the mutations done before it. *)
Definition M (A : Type) : Type := world -> world * res A.

#[global] Instance M_ret : MRet M := fun A a w => (w, Return a).
#[global] Instance M_bind : MBind M := fun A B f m w =>
  match m w with
  | (w', Return a) => f a w'
  | (w', Raise e) => (w', Raise e)
  end.

Definition raise {A : Type} (e : exn) : M A := fun w => (w, Raise e).

(** An expression that only reads the world. *)
Definition read {A : Type} (r : world -> res A) : M A := fun w => (w, r w).

(** [self.name] *)
Definition getattr (w : world) (name : string) : res value :=
  match self w !! name with
  | Some v => Return v
  | None => Raise (AttributeError name)
  end.

(** [setattr(self, name, v)] *)
Definition setattr (name : string) (v : value) : M unit := fun w =>
  (World (heap w) (<[name := v]> (self w)), Return tt).

(** The object a reference points to.  Python has no dangling reference;
    [SystemError] stands for one. *)
Definition deref (h : list obj) (l : nat) : res obj :=
  match h !! l with
  | Some o => Return o
  | None => Raise SystemError
  end.

(** Allocation of a new object at the end of the heap. *)
Definition alloc (o : obj) : M value := fun w =>
  (World (heap w ++ [o]) (self w), Return (VRef (length (heap w)))).

(** [copy.copy(v)]: atomic values, strings and tuples are returned as they
    are; a list or a dict is copied one level deep ([list.copy],
    [dict.copy]), its elements stay shared. *)
Definition copy_copy (v : value) : M value :=
  match v with
  | VRef l => o ← read (fun w => deref (heap w) l); alloc o
  | _ => mret v
  end.

(** ** The built-in operations the methods use *)

(** [s.startswith(p)], [s.endswith(p)] and [p in s] on strings. *)
Definition startswith (p s : string) : bool := String.prefix p s.

Definition endswith (p s : string) : bool :=
  let n := String.length s in
  let k := String.length p in
  (k <=? n)%nat && String.eqb (String.substring (n - k) k s) p.

Fixpoint contains_str (p s : string) : bool :=
  startswith p s ||
  match s with
  | EmptyString => false
  | String _ s' => contains_str p s'
  end.

(** [os.path.join(a, b)] on POSIX paths. *)
Definition path_join (a b : string) : string :=
  if startswith "/" b then b
  else if String.eqb a "" || endswith "/" a then a ++ b
  else a ++ "/" ++ b.

(** [v == s] for a string literal [s]. *)
Definition eq_str (v : value) (s : string) : bool :=
  match v with
  | VStr t => String.eqb t s
  | _ => false
  end.

(** [v == x] for a float literal [x]; an int or a bool compares by its
    exact numeric value. *)
Definition eq_float (v : value) (x : spec_float) : bool :=
  match v with
  | VFloat y => Float64.eqb y x
  | VInt n => Float64.eqb_Z n x
  | VBool b => Float64.eqb_Z (if b then 1 else 0) x
  | _ => false
  end.

Definition is_none (v : value) : bool :=
  match v with
  | VNone => true
  | _ => false
  end.

Definition nonempty {A : Type} (l : list A) : bool :=
  match l with
  | [] => false
  | _ => true
  end.

(** [bool(v)] *)
Definition truthy (h : list obj) (v : value) : res bool :=
  match v with
  | VNone => Return false
  | VBool b => Return b
  | VInt n => Return (negb (n =? 0))
  | VFloat x => Return (Float64.nonzero x)
  | VStr s => Return (negb (String.eqb s ""))
  | VTuple vs => Return (nonempty vs)
  | VRef l =>
      o ← deref h l;
      match o with
      | OList vs => Return (nonempty vs)
      | ODict kvs => Return (nonempty kvs)
      end
  end.

(** [s in v] for a string literal [s]: a substring test on a string, a
    membership test on a tuple or a list, a key test on a dict. *)
Definition contains (h : list obj) (s : string) (v : value) : res bool :=
  match v with
  | VStr t => Return (contains_str s t)
  | VTuple vs => Return (existsb (fun x => eq_str x s) vs)
  | VRef l =>
      o ← deref h l;
      match o with
      | OList vs => Return (existsb (fun x => eq_str x s) vs)
      | ODict kvs => Return (existsb (fun kv => String.eqb kv.1 s) kvs)
      end
  | _ => Raise TypeError
  end.

(** [v[:3] == s] for a string literal [s]: only the slice of a string can
    equal a string; a dict and the atomic values cannot be sliced. *)
Definition prefix3_eq (h : list obj) (v : value) (s : string) : res bool :=
  match v with
  | VStr t => Return (String.eqb (String.substring 0 3 t) s)
  | VTuple _ => Return false
  | VRef l =>
      o ← deref h l;
      match o with
      | OList _ => Return false
      | ODict _ => Raise TypeError
      end
  | _ => Raise TypeError
  end.

Definition nth_value (vs : list value) (i : nat) : res value :=
  match vs !! i with
  | Some v => Return v
  | None => Raise IndexError
  end.

(** [v[i]] for a literal index [i]. *)
Definition subscript_int (h : list obj) (v : value) (i : nat) : res value :=
  match v with
  | VTuple vs => nth_value vs i
  | VStr s =>
      match String.get i s with
      | Some c => Return (VStr (String c ""))
      | None => Raise IndexError
      end
  | VRef l =>
      o ← deref h l;
      match o with
      | OList vs => nth_value vs i
      | ODict _ => Raise (KeyError (Float64.string_of_Z (Z.of_nat i)))
      end
  | _ => Raise TypeError
  end.

Fixpoint assoc (key : string) (kvs : list (string * value)) : option value :=
  match kvs with
  | [] => None
  | (k, v) :: rest => if String.eqb k key then Some v else assoc key rest
  end.

(** [v[key]] for a string literal [key]. *)
Definition subscript_str (h : list obj) (v : value) (key : string) : res value :=
  match v with
  | VRef l =>
      o ← deref h l;
      match o with
      | ODict kvs =>
          match assoc key kvs with
          | Some x => Return x
          | None => Raise (KeyError key)
          end
      | OList _ => Raise TypeError
      end
  | _ => Raise TypeError
  end.

Definition chars (s : string) : list value :=
  (fun c => VStr (String c "")) <$> String.list_ascii_of_string s.

(** The elements [for i in v] runs over. *)
Definition iterate (h : list obj) (v : value) : res (list value) :=
  match v with
  | VTuple vs => Return vs
  | VStr s => Return (chars s)
  | VRef l =>
      o ← deref h l;
      match o with
      | OList vs => Return vs
      | ODict kvs => Return ((fun kv => VStr kv.1) <$> kvs)
      end
  | _ => Raise TypeError
  end.

(** ['{:.df}'.format(v)]: a float is formatted, an int or a bool is
    converted to a float first; no other value takes this format. *)
Definition format_int_f (d : nat) (n : Z) : res string :=
  match Float64.of_Z n with
  | S754_infinity _ => Raise OverflowError
  | x => Return (Float64.format_f d x)
  end.

Definition format_f (d : nat) (v : value) : res string :=
  match v with
  | VFloat x => Return (Float64.format_f d x)
  | VInt n => format_int_f d n
  | VBool b => format_int_f d (if b then 1 else 0)
  | VStr _ => Raise (ValueError "Unknown format code 'f' for object of type 'str'")
  | _ => Raise TypeError
  end.

(** ['{:d}'.format(v)] *)
Definition format_d (v : value) : res string :=
  match v with
  | VInt n => Return (Float64.string_of_Z n)
  | VBool b => Return (if b then "1" else "0")
  | VFloat _ => Raise (ValueError "Unknown format code 'd' for object of type 'float'")
  | VStr _ => Raise (ValueError "Unknown format code 'd' for object of type 'str'")
  | _ => Raise TypeError
  end.

(** [b & v] for a bool [b], as a truth value: a bool or an int operand
    gives the bitwise and, any other operand is a [TypeError]. *)
Definition bool_and (b : bool) (v : value) : res bool :=
  match v with
  | VBool c => Return (b && c)
  | VInt n => Return (negb (Z.land (if b then 1 else 0) n =? 0))
  | _ => Raise TypeError
  end.

Section Str.

(** [repr] of a float, a tuple, a list or a dict is Python's own
    algorithm (shortest round-trip digits, nested quoting); the methods
    only pass its result through, so it is left abstract. *)
Variable py_repr : list obj -> value -> string.

(** [str(v)], which is also ['{}'.format(v)]. *)
Definition str (h : list obj) (v : value) : string :=
  match v with
  | VNone => "None"
  | VBool b => if b then "True" else "False"
  | VInt n => Float64.string_of_Z n
  | VStr s => s
  | _ => py_repr h v
  end.

End Str.

(** ** The class [LocalFileName] *)

(** Float literals of the source. *)
Definition f0_0 : spec_float := S754_zero false.
Definition f0_8 : spec_float := Eval vm_compute in Float64.of_decimal 8 10.
Definition f1_6 : spec_float := Eval vm_compute in Float64.of_decimal 16 10.
Definition f1_1 : spec_float := Eval vm_compute in Float64.of_decimal 11 10.
Definition f0_95 : spec_float := Eval vm_compute in Float64.of_decimal 95 100.
Definition f0_4 : spec_float := Eval vm_compute in Float64.of_decimal 4 10.
Definition f0_5 : spec_float := Eval vm_compute in Float64.of_decimal 5 10.

Definition _defaults : list (string * value) :=
  [ ("fdir", VStr ""); ("mockgen", VStr "second"); ("ftype", VStr "power");
    ("realization", VInt 0); ("tracer", VStr "ELG");
    ("completeness", VBool true); ("region", VStr "GCcomb");
    ("zrange", VNone); ("z", VNone); ("weighting", VNone); ("nran", VNone);
    ("los", VNone); ("cellsize", VNone); ("nmesh", VNone);
    ("boxsize", VNone); ("rpcut", VFloat f0_0); ("thetacut", VFloat f0_0);
    ("directedges", VBool true); ("sculpt_attrs", VNone) ].

(** [name in self._defaults] *)
Definition in_defaults (name : string) : bool :=
  existsb (fun kv => String.eqb kv.1 name) _defaults.

(** [str(list(self._defaults))] *)
Definition defaults_repr : string :=
  "[" ++ String.concat ", " ((fun kv => "'" ++ kv.1 ++ "'") <$> _defaults) ++ "]".

Definition unknown_argument (name : string) : exn :=
  ValueError ("Unknown argument " ++ name ++ "; supports " ++ defaults_repr).

(** [update(self, **kwargs)]: the keys are visited in the order of the
    mapping; the first unknown one raises, after the keys before it have
    been set. *)
Fixpoint update (kwargs : list (string * value)) : M unit :=
  match kwargs with
  | [] => mret tt
  | (name, v) :: rest =>
      if in_defaults name then
        c ← copy_copy v;
        setattr name c;;
        update rest
      else raise (unknown_argument name)
  end.

(** [__init__(self, **kwargs)], the keyword form of the constructor: every
    attribute takes a copy of its default, then [kwargs] are merged. *)
Definition __init__ (kwargs : list (string * value)) : M unit :=
  update _defaults;;
  update kwargs.

Definition mocks_root : string := "/global/cfs/cdirs/desi/users/mpinon/".

Section Methods.

Variable py_repr : list obj -> value -> string.

Local Abbreviation str := (str py_repr).

(** The inner function [opt_attr(name, attr)]. *)
Definition opt_attr (h : list obj) (name : string) (attr : value) : string :=
  if is_none attr then "" else "_" ++ name ++ str h attr.

(** Lines 72-77: the [cut] local. *)
Definition cut_segment (w : world) : res string :=
  rpcut ← getattr w "rpcut";
  b ← truthy (heap w) rpcut;
  if b : bool then
    s ← format_f 1 rpcut; mret ("_rpcut" ++ s)
  else
    thetacut ← getattr w "thetacut";
    b' ← truthy (heap w) thetacut;
    if b' : bool then
      s ← format_f 2 thetacut; mret ("_thetacut" ++ s)
    else mret "".

(** Lines 79-84: an empty [fdir] is replaced, in the instance, by the
    directory derived from [mockgen] and [ftype]. *)
Definition derive_fdir : M unit :=
  fdir ← read (fun w => getattr w "fdir");
  if eq_str fdir "" then
    mockgen ← read (fun w => getattr w "mockgen");
    base ← read (fun w => mret (mocks_root ++ str (heap w) mockgen ++ "GenMocksY1"));
    setattr "fdir" (VStr base);;
    ftype ← read (fun w => getattr w "ftype");
    corr ← read (fun w => contains (heap w) "corr" ftype);
    if corr : bool then setattr "fdir" (VStr (path_join base "xi"))
    else setattr "fdir" (VStr (path_join base "pk"))
  else mret tt.

(** Lines 86-94: the [comp] local, which no branch binds when
    [completeness] is not a string and [mockgen] names no generation. *)
Definition comp_segment (w : world) : res (option string) :=
  completeness ← getattr w "completeness";
  match completeness with
  | VStr s => mret (Some s)
  | _ =>
      mockgen ← getattr w "mockgen";
      first ← contains (heap w) "first" mockgen;
      if first : bool then
        c ← truthy (heap w) completeness;
        mret (Some (if c : bool then "_complete" else ""))
      else
        second ← contains (heap w) "second" mockgen;
        if second : bool then
          c ← truthy (heap w) completeness;
          mret (Some (if c : bool then "_complete" else "_ffa"))
        else
          cubic ← contains (heap w) "cubic" mockgen;
          if cubic : bool then mret (Some "") else mret None
  end.

(** Lines 95-101: the [z] local. *)
Definition z_segment (w : world) : res string :=
  zrange ← getattr w "zrange";
  if is_none zrange then
    z ← getattr w "z";
    if is_none z then mret ""
    else s ← format_f 3 z; mret ("_z" ++ s)
  else
    lo ← subscript_int (heap w) zrange 0;
    hi ← subscript_int (heap w) zrange 1;
    a ← format_f 1 lo;
    b ← format_f 1 hi;
    mret ("_z" ++ a ++ "-" ++ b).

(** Lines 102-105: the [direct] local. *)
Definition direct_segment (cut : string) (w : world) : res string :=
  directedges ← getattr w "directedges";
  b ← bool_and (negb (String.eqb cut "")) directedges;
  if b : bool then mret "_directedges_max5000" else mret "".

(** Lines 108-111: the [sculpt_attrs] local. *)
Definition sculpt_segment (w : world) : res string :=
  sa ← getattr w "sculpt_attrs";
  if is_none sa then mret ""
  else
    ells ← subscript_str (heap w) sa "ells";
    orders ← iterate (heap w) ells;
    kobsmax ← subscript_str (heap w) sa "kobsmax";
    ktmax ← subscript_str (heap w) sa "ktmax";
    capsig ← subscript_str (heap w) sa "capsig";
    difflfac ← subscript_str (heap w) sa "difflfac";
    covtype ← subscript_str (heap w) sa "covtype";
    a ← format_f 1 kobsmax;
    b ← format_f 1 ktmax;
    c ← format_d capsig;
    d ← format_d difflfac;
    mret ("_ells" ++ String.concat "" (str (heap w) <$> orders) ++
          "_kobsmax" ++ a ++ "_ktmax" ++ b ++ "_capsig" ++ c ++
          "_difflfac" ++ d ++ "_" ++ str (heap w) covtype ++ "cov").

(** Line 113: the [fname] local; the arguments of [format] are evaluated
    from left to right, [comp] after [self.tracer]. *)
Definition fname_segment (comp : option string) (z cut direct sculpt : string)
    (w : world) : res string :=
  let h := heap w in
  ftype ← getattr w "ftype";
  realization ← getattr w "realization";
  tracer ← getattr w "tracer";
  comp ← match comp with
         | Some c => Return c
         | None => Raise (UnboundLocalError "comp")
         end;
  region ← getattr w "region";
  weighting ← getattr w "weighting";
  nran ← getattr w "nran";
  los ← getattr w "los";
  cellsize ← getattr w "cellsize";
  nmesh ← getattr w "nmesh";
  boxsize ← getattr w "boxsize";
  mret (str h ftype ++ opt_attr h "mock" realization ++ "_" ++ str h tracer ++
        comp ++ opt_attr h "" region ++ z ++
        (if is_none weighting then "" else str h weighting) ++
        opt_attr h "nran" nran ++ opt_attr h "los" los ++
        opt_attr h "cellsize" cellsize ++ opt_attr h "nmesh" nmesh ++
        opt_attr h "boxsize" boxsize ++ cut ++ direct ++ sculpt ++ ".npy").

(** Line 115: [os.path.join(self.fdir, fname)]. *)
Definition join_fdir (fname : string) (w : world) : res string :=
  fdir ← getattr w "fdir";
  match fdir with
  | VStr d => mret (path_join d fname)
  | _ => Raise TypeError
  end.

(** Lines 86-115: once [fdir] is settled, the rest of [get_path] only reads
    the instance. *)
Definition render (cut : string) (w : world) : res string :=
  comp ← comp_segment w;
  z ← z_segment w;
  direct ← direct_segment cut w;
  sculpt ← sculpt_segment w;
  fname ← fname_segment comp z cut direct sculpt w;
  join_fdir fname w.

(** [get_path(self, **kwargs)] *)
Definition get_path (kwargs : list (string * value)) : M string :=
  update kwargs;;
  cut ← read cut_segment;
  derive_fdir;;
  read (render cut).

(** Locals of [set_default_config]: each is unbound until a branch
    assigns it. *)
Record locals : Type := Locals {
  default_options : option (list (string * value));
  subdir : option string
}.

Definition load_local {A : Type} (name : string) (x : option A) : res A :=
  match x with
  | Some a => Return a
  | None => Raise (UnboundLocalError name)
  end.

(** Value-typed globals of the module: it binds [os], [copy], [np] and
    the class, and no other name. *)
Definition module_globals : gmap string value := ∅.

Definition load_global (name : string) : res value :=
  match module_globals !! name with
  | Some v => Return v
  | None => Raise (NameError name)
  end.

(** [d[key] = v] on a dict. *)
Fixpoint dict_set (key : string) (v : value) (kvs : list (string * value))
    : list (string * value) :=
  match kvs with
  | [] => [(key, v)]
  | (k, x) :: rest =>
      if String.eqb k key then (k, v) :: rest else (k, x) :: dict_set key v rest
  end.

(** [raise ValueError('Unknown tracer: {}'.format(tracer))]: the message
    is built from the name [tracer], looked up as a global. *)
Definition unknown_tracer {A : Type} : M A :=
  tracer ← read (fun _ => load_global "tracer");
  h ← read (fun w => mret (heap w));
  raise (ValueError ("Unknown tracer: " ++ str h tracer)).

(** [default_options['fdir'] = os.path.join(root, subdir)]: the right-hand
    side is evaluated before the dict is loaded. *)
Definition set_fdir_option (root : string) (lv : locals) : M locals :=
  sub ← read (fun _ => load_local "subdir" (subdir lv));
  opts ← read (fun _ => load_local "default_options" (default_options lv));
  mret (Locals (Some (dict_set "fdir" (VStr (path_join root sub)) opts)) (subdir lv)).

Definition zrange_ELG : value := VTuple [VFloat f0_8; VFloat f1_6].

(** Lines 120-135. *)
Definition first_block (lv : locals) : M locals :=
  tracer ← read (fun w => getattr w "tracer");
  elg ← read (fun w => prefix3_eq (heap w) tracer "ELG");
  lv' ← (if elg : bool then
           ftype ← read (fun w => getattr w "ftype");
           corr ← read (fun w => contains (heap w) "corr" ftype);
           if corr : bool then
             mret (Locals (Some [("tracer", VStr "ELG"); ("zrange", zrange_ELG)])
                          (Some "xi"))
           else
             mret (Locals (Some [("tracer", VStr "ELG"); ("zrange", zrange_ELG);
                                 ("directedges", VBool false)])
                          (Some "pk"))
         else unknown_tracer);
  set_fdir_option (mocks_root ++ "firstGenMocksY1") lv'.

Definition sculpt_defaults (ells : value) : list (string * value) :=
  [ ("ells", ells); ("kobsmax", VFloat f0_4); ("ktmax", VFloat f0_5);
    ("capsig", VInt 5); ("difflfac", VInt 10); ("covtype", VStr "analytic") ].

(** Lines 137-157. *)
Definition second_block (lv : locals) : M locals :=
  tracer ← read (fun w => getattr w "tracer");
  elg ← read (fun w => prefix3_eq (heap w) tracer "ELG");
  lv' ← (if elg : bool then
           ftype ← read (fun w => getattr w "ftype");
           corr ← read (fun w => contains (heap w) "corr" ftype);
           if corr : bool then
             mret (Locals (Some [("tracer", VStr "ELG_LOP"); ("zrange", zrange_ELG)])
                          (Some "xi"))
           else
             let opts := [("tracer", VStr "ELG_LOP"); ("zrange", zrange_ELG);
                          ("cellsize", VInt 4); ("directedges", VBool true)] in
             ftype' ← read (fun w => getattr w "ftype");
             sculpt ← read (fun w => contains (heap w) "sculpt" ftype');
             if sculpt : bool then
               ells ← alloc (OList [VInt 0; VInt 2; VInt 4]);
               sa ← alloc (ODict (sculpt_defaults ells));
               mret (Locals (Some (dict_set "sculpt_attrs" sa opts)) (Some "pk"))
             else mret (Locals (Some opts) (Some "pk"))
         else unknown_tracer);
  set_fdir_option (mocks_root ++ "secondGenMocksY1") lv'.

(** Lines 159-180: the two tests on [self.z] are independent [if]s, and
    neither binds [default_options] for another redshift. *)
Definition cubic_block (lv : locals) : M locals :=
  tracer ← read (fun w => getattr w "tracer");
  elg ← read (fun w => prefix3_eq (heap w) tracer "ELG");
  lv' ← (if elg : bool then
           z ← read (fun w => getattr w "z");
           let lv1 :=
             if eq_float z f1_1 || is_none z then
               Locals (Some [("tracer", VStr "ELG"); ("region", VNone);
                             ("zrange", VNone); ("z", VFloat f1_1);
                             ("nmesh", VInt 2048); ("boxsize", VInt 2000)])
                      (subdir lv)
             else lv in
           z' ← read (fun w => getattr w "z");
           lv2 ← (if eq_float z' f0_95 then
                    z'' ← read (fun w => getattr w "z");
                    mret (Locals (Some [("tracer", VStr "ELG"); ("region", VNone);
                                        ("zrange", VNone); ("z", z'');
                                        ("cellsize", VInt 6); ("boxsize", VInt 2000)])
                                 (subdir lv1))
                  else mret lv1);
           mret (Locals (default_options lv2) (Some "pk"))
         else unknown_tracer);
  set_fdir_option (mocks_root ++ "cubicSecondGenMocks") lv'.

(** [self.mockgen == name], guarding one block. *)
Definition when_mockgen (name : string) (block : locals -> M locals)
    (lv : locals) : M locals :=
  mockgen ← read (fun w => getattr w "mockgen");
  if eq_str mockgen name then block lv else mret lv.

(** [set_default_config(self, **kwargs)] *)
Definition set_default_config (kwargs : list (string * value)) : M unit :=
  update kwargs;;
  lv ← when_mockgen "first" first_block (Locals None None);
  lv ← when_mockgen "second" second_block lv;
  lv ← when_mockgen "cubic" cubic_block lv;
  opts ← read (fun _ => load_local "default_options" (default_options lv));
  update opts.

End Methods.

(** ** Instances used in the examples *)

(** The instance the constructor builds from [kwargs] in an empty heap. *)
Definition new (kwargs : list (string * value)) : world :=
  (__init__ kwargs (World [] ∅)).1.

(** The record of the naming example of the specification. *)
Definition power_mock3 : world :=
  new [ ("mockgen", VStr "second"); ("tracer", VStr "ELG"); ("ftype", VStr "power");
        ("realization", VInt 3); ("region", VStr "NGC"); ("zrange", zrange_ELG);
        ("cellsize", VInt 4); ("nmesh", VNone); ("completeness", VBool true) ].

Definition first_LRG : world :=
  new [ ("mockgen", VStr "first"); ("tracer", VStr "LRG") ].

(** ** What a caller may do with a value it passed

    A value is valid in a heap when, if it is a reference, it points into
    that heap. *)
Definition valid_value (h : list obj) (v : value) : Prop :=
  match v with
  | VRef l => (l < length h)%nat
  | _ => True
  end.

(** [v'], in the heap [h'], is a one-level copy of [v] taken in the heap
    [h]: the same value when [v] is immutable, otherwise a reference to an
    object that [h] did not hold, that has the elements of the original,
    and that no store into an object of [h] reaches. *)
Definition shallow_copy_of (h h' : list obj) (v v' : value) : Prop :=
  match v with
  | VRef l =>
      exists l' : nat,
        v' = VRef l' /\ (length h <= l')%nat /\ h' !! l' = h !! l /\
        forall (l0 : nat) (o : obj), (l0 < length h)%nat -> <[l0 := o]> h' !! l' = h' !! l'
  | _ => v' = v
  end.

(** The mutation in place of the object at [l]. *)
Definition store (l : nat) (o : obj) : M unit := fun w =>
  (World (<[l := o]> (heap w)) (self w), Return tt).

(** [target.append(x)] *)
Definition list_append (target x : value) : M unit :=
  match target with
  | VRef l =>
      o ← read (fun w => deref (heap w) l);
      match o with
      | OList vs => store l (OList (vs ++ [x]))
      | ODict _ => raise (AttributeError "append")
      end
  | _ => raise (AttributeError "append")
  end.

(** [self.sculpt_attrs['ells']], read as a list. *)
Definition read_ells (w : world) : res (list value) :=
  sa ← getattr w "sculpt_attrs";
  ells ← subscript_str (heap w) sa "ells";
  iterate (heap w) ells.

(** A caller that holds, at location 1, the dict of sculpting attributes,
    whose list of multipoles is at location 0, next to a default instance. *)
Definition caller_world : world :=
  World [OList [VInt 0; VInt 2; VInt 4]; ODict (sculpt_defaults (VRef 0))]
        (self (new [])).

(** ** Vocabulary of the statements *)

(** The world where the attribute [name] holds [v]. *)
Definition set_attr (name : string) (v : value) (w : world) : world :=
  World (heap w) (<[name := v]> (self w)).

(** Two worlds whose heaps are the same and whose instances agree on every
    attribute of the closed set. *)
Definition same_attributes (w1 w2 : world) : Prop :=
  heap w1 = heap w2 /\
  forall name : string, in_defaults name = true -> self w1 !! name = self w2 !! name.

(** The cut segment in the words of the specification: the radial cut with
    one decimal when it is nonzero, else the angular cut with two decimals
    when it is nonzero, else nothing. *)
Definition cut_spec (radial_cut angular_cut : spec_float) : string :=
  if Float64.nonzero radial_cut then "_rpcut" ++ Float64.format_f 1 radial_cut
  else if Float64.nonzero angular_cut then "_thetacut" ++ Float64.format_f 2 angular_cut
  else "".

(** The redshift segment in the words of the specification: the range when
    it is set, else the point when it is set, else nothing. *)
Definition z_spec (redshift_range : option (spec_float * spec_float))
    (redshift_point : option spec_float) : string :=
  match redshift_range, redshift_point with
  | Some (lo, hi), _ => "_z" ++ Float64.format_f 1 lo ++ "-" ++ Float64.format_f 1 hi
  | None, Some x => "_z" ++ Float64.format_f 3 x
  | None, None => ""
  end.

(** The Python values of an optional pair of floats and of an optional
    float. *)
Definition zrange_value (r : option (spec_float * spec_float)) : value :=
  match r with
  | Some (lo, hi) => VTuple [VFloat lo; VFloat hi]
  | None => VNone
  end.

Definition z_value (x : option spec_float) : value :=
  match x with
  | Some y => VFloat y
  | None => VNone
  end.

(** The sculpting attributes of the data model: none, or a dict with a
    sequence of multipoles, two floats, two ints and a covariance type. *)
Definition sculpt_ok (h : list obj) (v : value) : Prop :=
  v = VNone \/
  exists (l : nat) (kvs : list (string * value)) (ells : value) (orders : list value)
         (kobsmax ktmax : spec_float) (capsig difflfac : Z) (covtype : value),
    v = VRef l /\ h !! l = Some (ODict kvs) /\
    assoc "ells" kvs = Some ells /\ iterate h ells = Return orders /\
    assoc "kobsmax" kvs = Some (VFloat kobsmax) /\
    assoc "ktmax" kvs = Some (VFloat ktmax) /\
    assoc "capsig" kvs = Some (VInt capsig) /\
    assoc "difflfac" kvs = Some (VInt difflfac) /\
    assoc "covtype" kvs = Some covtype.

(** A record whose attributes, generation and completeness apart, have the
    types of the data model. *)
Record well_typed (w : world) : Prop := WellTyped {
  wt_fdir : exists s : string, self w !! "fdir" = Some (VStr s);
  wt_ftype : exists s : string, self w !! "ftype" = Some (VStr s);
  wt_realization : is_Some (self w !! "realization");
  wt_tracer : is_Some (self w !! "tracer");
  wt_rpcut : exists x : spec_float, self w !! "rpcut" = Some (VFloat x);
  wt_thetacut : exists x : spec_float, self w !! "thetacut" = Some (VFloat x);
  wt_zrange : exists r : option (spec_float * spec_float),
      self w !! "zrange" = Some (zrange_value r);
  wt_z : exists x : option spec_float, self w !! "z" = Some (z_value x);
  wt_directedges : exists b : bool, self w !! "directedges" = Some (VBool b);
  wt_sculpt_attrs : exists v : value,
      self w !! "sculpt_attrs" = Some v /\ sculpt_ok (heap w) v
}.

(** The presets of the 'cubic' generation, as [set_default_config] merges
    them. *)
Definition cubic_fdir : value := VStr (path_join (mocks_root ++ "cubicSecondGenMocks") "pk").

Definition cubic_preset_z1_1 : list (string * value) :=
  [ ("tracer", VStr "ELG"); ("region", VNone); ("zrange", VNone); ("z", VFloat f1_1);
    ("nmesh", VInt 2048); ("boxsize", VInt 2000); ("fdir", cubic_fdir) ].

Definition cubic_preset_z0_95 (z : value) : list (string * value) :=
  [ ("tracer", VStr "ELG"); ("region", VNone); ("zrange", VNone); ("z", z);
    ("cellsize", VInt 6); ("boxsize", VInt 2000); ("fdir", cubic_fdir) ].

(** A 'cubic' record at a redshift that has no preset. *)
Definition cubic_z0_8 : world :=
  new [ ("mockgen", VStr "cubic"); ("z", VFloat f0_8) ].

(** The directory [get_path] derives for a generation and a file type. *)
Definition derived_base (py_repr : list obj -> value -> string)
    (h : list obj) (mockgen : value) : string :=
  mocks_root ++ str py_repr h mockgen ++ "GenMocksY1".

Definition derived_fdir (py_repr : list obj -> value -> string)
    (h : list obj) (mockgen : value) (corr : bool) : value :=
  VStr (path_join (derived_base py_repr h mockgen) (if corr then "xi" else "pk")).

(** Whether a generation string names one of the three generations. *)
Definition names_generation (g : string) : bool :=
  contains_str "first" g || contains_str "second" g || contains_str "cubic" g.

(** An instance with both cuts set, one of an unknown generation, and one
    that carries an attribute outside the closed set. *)
Definition f2_5 : spec_float := Eval vm_compute in Float64.of_decimal 25 10.
Definition f0_05 : spec_float := Eval vm_compute in Float64.of_decimal 5 100.

Definition both_cuts : world :=
  new [ ("rpcut", VFloat f2_5); ("thetacut", VFloat f0_05) ].

Definition range_and_point : world :=
  new [ ("zrange", zrange_ELG); ("z", VFloat f1_1) ].

Definition third_generation : world :=
  new [ ("mockgen", VStr "third") ].

Definition annotated : world :=
  set_attr "note" (VStr "checked") (new []).

(** ** The closed attribute set as an invariant *)

(** The instance binds the names of the closed set and no other. *)
Definition closed_attributes (w : world) : Prop :=
  forall name : string, is_Some (self w !! name) <-> in_defaults name = true.

(** What a statement may do, whatever its outcome: add objects to the
    heap, and bind names of the closed set. *)
Definition keeps_closed_set {A : Type} (m : M A) : Prop :=
  forall w : world,
    heap w `prefix_of` heap (m w).1 /\
    (forall name : string,
       is_Some (self w !! name) -> is_Some (self (m w).1 !! name)) /\
    (forall name : string,
       is_Some (self (m w).1 !! name) ->
       is_Some (self w !! name) \/ in_defaults name = true).

(** A completeness the file name can show: a string, or a boolean next to
    a generation string that names a generation. *)
Definition completeness_ok (w : world) : Prop :=
  (exists s : string, self w !! "completeness" = Some (VStr s)) \/
  (exists (b : bool) (g : string),
     self w !! "completeness" = Some (VBool b) /\
     self w !! "mockgen" = Some (VStr g) /\
     names_generation g = true).

(** The direct-edges segment as the source comments it: present when a cut
    is active and direct edges are asked for. *)
Definition direct_spec (radial_cut angular_cut : spec_float) (directedges : bool) : string :=
  if (Float64.nonzero radial_cut || Float64.nonzero angular_cut) && directedges
  then "_directedges_max5000" else "".

(** A 'cubic' record with no cut. *)
Definition cubic_record : world :=
  new [ ("mockgen", VStr "cubic") ].

(** The presets of the 'first' and 'second' generations, as
    [set_default_config] merges them: [corr] tells whether the file type
    contains 'corr', [sculpt_attrs] is the dict of sculpting attributes when
    one was built. *)
Definition first_preset (corr : bool) : list (string * value) :=
  if corr then
    [ ("tracer", VStr "ELG"); ("zrange", zrange_ELG);
      ("fdir", VStr (path_join (mocks_root ++ "firstGenMocksY1") "xi")) ]
  else
    [ ("tracer", VStr "ELG"); ("zrange", zrange_ELG); ("directedges", VBool false);
      ("fdir", VStr (path_join (mocks_root ++ "firstGenMocksY1") "pk")) ].

Definition second_preset (corr : bool) (sculpt_attrs : option value)
    : list (string * value) :=
  if corr then
    [ ("tracer", VStr "ELG_LOP"); ("zrange", zrange_ELG);
      ("fdir", VStr (path_join (mocks_root ++ "secondGenMocksY1") "xi")) ]
  else
    match sculpt_attrs with
    | Some sa =>
        [ ("tracer", VStr "ELG_LOP"); ("zrange", zrange_ELG); ("cellsize", VInt 4);
          ("directedges", VBool true); ("sculpt_attrs", sa);
          ("fdir", VStr (path_join (mocks_root ++ "secondGenMocksY1") "pk")) ]
    | None =>
        [ ("tracer", VStr "ELG_LOP"); ("zrange", zrange_ELG); ("cellsize", VInt 4);
          ("directedges", VBool true);
          ("fdir", VStr (path_join (mocks_root ++ "secondGenMocksY1") "pk")) ]
    end.

(** The world after the list of multipoles and the dict of sculpting
    attributes have been built, and the reference to that dict. *)
Definition with_sculpt_defaults (w : world) : world :=
  World (heap w ++ [ OList [VInt 0; VInt 2; VInt 4];
                     ODict (sculpt_defaults (VRef (length (heap w)))) ])
        (self w).

Definition sculpt_defaults_ref (w : world) : value := VRef (S (length (heap w))).

(** Keywords that ask for a correlation function of the first generation
    and for a sculpted window of the second, and the records they leave. *)
Definition first_corr_kwargs : list (string * value) :=
  [ ("mockgen", VStr "first"); ("tracer", VStr "ELG_HIP"); ("ftype", VStr "corr_func") ].

Definition first_corr_record : world := (update first_corr_kwargs (new [])).1.

Definition sculpt_kwargs : list (string * value) :=
  [ ("ftype", VStr "wmatrix_smooth_sculpt") ].

Definition sculpt_record : world := (update sculpt_kwargs (new [])).1.

(** The values [copy.copy] returns as they are. *)
Definition copied_as_is (v : value) : bool :=
  match v with
  | VRef _ => false
  | _ => true
  end.

(** Keywords with a file type that starts with a slash. *)
Definition absolute_kwargs : list (string * value) :=
  [ ("ftype", VStr "/tmp/power") ].

(** ** The constructor with positional arguments *)

(** [{**a, **b}]: [a], where each item of [b] in turn replaces the value of
    its key or is added at the end. *)
Definition dict_merge (a b : list (string * value)) : list (string * value) :=
  foldl (fun d kv => dict_set kv.1 kv.2 d) a b.

(** The items [{**v}] unpacks: only a dict is a mapping, any other value is
    a [TypeError]. *)
Definition mapping_items (h : list obj) (v : value) : res (list (string * value)) :=
  match v with
  | VRef l =>
      o ← deref h l;
      match o with
      | ODict kvs => Return kvs
      | OList _ => Raise TypeError
      end
  | _ => Raise TypeError
  end.

(** [__init__(self, *args, **kwargs)], lines 40-51, for a first argument
    that is no instance of the class (no value of the model is one): a
    mapping is merged with the keywords; on the [TypeError] of anything
    else, the arguments are zipped with the names of [_defaults], in their
    order, and merged with the keywords. *)
Definition __init__with_args (args : list value) (kwargs : list (string * value))
    : M unit := fun w =>
  match args with
  | [] => __init__ kwargs w
  | a0 :: _ =>
      match mapping_items (heap w) a0 with
      | Return kvs => __init__ (dict_merge kvs kwargs) w
      | Raise TypeError => __init__ (dict_merge (zip _defaults.*1 args) kwargs) w
      | Raise e => (w, Raise e)
      end
  end.

(** The record [set_default_config] leaves of a new instance. *)
Definition resolved_second : world :=
  (update (second_preset false None) (new [])).1.

(** A caller that holds, at location 0, a mapping of attributes. *)
Definition mapping_heap : list obj :=
  [ ODict [ ("tracer", VStr "ELG_LOP"); ("realization", VInt 7) ] ].

(** Keywords with a tracer that has no preset. *)
Definition LRG_kwargs : list (string * value) :=
  [ ("tracer", VStr "LRG"); ("realization", VNone) ].

Definition LRG_record : world := (update LRG_kwargs (new [])).1.

(** * Properties *)

(** ** The two monads *)

Lemma M_bind_eq {A B : Type} (m : M A) (f : A -> M B) (w : world) :
  (m ≫= f) w =
  match m w with
  | (w', Return a) => f a w'
  | (w', Raise e) => (w', Raise e)
  end.
Proof. reflexivity. Qed.

Lemma read_bind {A B : Type} (r : world -> res A) (f : A -> M B) (w : world) :
  (read r ≫= f) w =
  match r w with
  | Return a => f a w
  | Raise e => (w, Raise e)
  end.
Proof. unfold mbind, M_bind, read. destruct (r w); reflexivity. Qed.

Lemma getattr_Some (w : world) (name : string) (v : value) :
  self w !! name = Some v -> getattr w name = Return v.
Proof. unfold getattr. intros ->. reflexivity. Qed.

(** ** The naming example *)

(** C5: on the record with generation 'second', tracer 'ELG', file type
    'power', realization 3, region 'NGC', redshift range (0.8, 1.6), cell size
    4, no mesh count and completeness true, [set_default_config] returns and
    sets the tracer to 'ELG_LOP', and [get_path] then returns the preset
    directory joined with exactly the file name
    'power_mock3_ELG_LOP_complete_NGC_z0.8-1.6_cellsize4.npy'. *)
Theorem power_mock3_path (py_repr : list obj -> value -> string) :
  let r := set_default_config py_repr [] power_mock3 in
  r.2 = Return tt /\
  self r.1 !! "tracer" = Some (VStr "ELG_LOP") /\
  (get_path py_repr [] r.1).2 =
    Return (path_join "/global/cfs/cdirs/desi/users/mpinon/secondGenMocksY1/pk"
                      "power_mock3_ELG_LOP_complete_NGC_z0.8-1.6_cellsize4.npy").
Proof. vm_compute. repeat split. Qed.

(** ** Unsupported tracers *)

Lemma prefix3_eq_str (h : list obj) (t s : string) :
  prefix3_eq h (VStr t) s = Return (String.eqb (String.substring 0 3 t) s).
Proof. reflexivity. Qed.

(** Whatever the generation, a tracer that does not start with 'ELG' makes
    [set_default_config] stop on the unbound name [tracer], with the record
    as it was: the [ValueError] that would name the tracer is never built. *)
Lemma set_default_config_unknown_tracer
    (py_repr : list obj -> value -> string) (w : world) (g t : string) :
  g ∈ ["first"; "second"; "cubic"] ->
  self w !! "mockgen" = Some (VStr g) ->
  self w !! "tracer" = Some (VStr t) ->
  String.eqb (String.substring 0 3 t) "ELG" = false ->
  set_default_config py_repr [] w = (w, Raise (NameError "tracer")).
Proof.
  intros Hg Hm Ht Hp.
  rewrite !elem_of_cons in Hg.
  destruct Hg as [-> | [-> | [-> | Hg]]]; [| | | by apply not_elem_of_nil in Hg].
  all: cbv [set_default_config when_mockgen first_block second_block cubic_block
            unknown_tracer set_fdir_option load_global update
            mbind M_bind read mret M_ret raise getattr].
  all: repeat first [ rewrite Hm | rewrite Ht | rewrite Hp
                    | progress cbn [eq_str prefix3_eq String.eqb Ascii.eqb Bool.eqb] ].
  all: reflexivity.
Qed.

(** C1: with generation 'first' and tracer 'LRG', [set_default_config] does
    raise, the record being left as it was, but what it raises is the
    [NameError] on the name [tracer] met while the message is built, not the
    [ValueError] that would name the tracer. *)
Theorem set_default_config_first_LRG (py_repr : list obj -> value -> string) :
  set_default_config py_repr [] first_LRG = (first_LRG, Raise (NameError "tracer")).
Proof.
  apply (set_default_config_unknown_tracer py_repr first_LRG "first" "LRG").
  - apply elem_of_cons; by left.
  - reflexivity.
  - reflexivity.
  - reflexivity.
Qed.

(** ** [update] *)

Lemma copy_copy_valid (v : value) (w : world) :
  valid_value (heap w) v ->
  exists (h' : list obj) (c : value),
    copy_copy v w = (World h' (self w), Return c) /\
    heap w `prefix_of` h' /\
    shallow_copy_of (heap w) h' v c.
Proof.
  intros Hv. destruct v as [| b | n | x | s | vs | l];
    try (eexists (heap w), _; destruct w;
         split; [reflexivity | split; [done | reflexivity]]).
  simpl in Hv. destruct (lookup_lt_is_Some_2 _ _ Hv) as [o Ho].
  exists (heap w ++ [o])%list, (VRef (length (heap w))).
  split; [| split].
  - cbv [copy_copy mbind M_bind read deref alloc]. rewrite Ho. reflexivity.
  - by apply prefix_app_r.
  - exists (length (heap w)). repeat split; [lia | |].
    + rewrite Ho. apply list_lookup_middle. reflexivity.
    + intros l0 o' Hl0. apply list_lookup_insert_ne. lia.
Qed.

Lemma shallow_copy_of_mono (h0 h h' h'' : list obj) (v c : value) :
  h0 `prefix_of` h -> h' `prefix_of` h'' ->
  valid_value h0 v ->
  shallow_copy_of h h' v c ->
  shallow_copy_of h0 h'' v c.
Proof.
  intros H0 H' Hv Hc. destruct v as [| b | n | x | s | vs | l]; try exact Hc.
  destruct Hc as (l' & -> & Hl' & Hlk & Hst). simpl in Hv.
  destruct (lookup_lt_is_Some_2 _ _ Hv) as [o Ho].
  pose proof (prefix_lookup_Some _ _ _ _ Ho H0) as Ho'.
  assert (Hc' : h' !! l' = Some o) by (by rewrite Hlk).
  pose proof (prefix_lookup_Some _ _ _ _ Hc' H') as Hc''.
  pose proof (prefix_length _ _ H0).
  exists l'. repeat split; [lia | by rewrite Hc'', Ho |].
  intros l0 o' Hl0. apply list_lookup_insert_ne. lia.
Qed.

Lemma valid_value_mono (h h' : list obj) (v : value) :
  h `prefix_of` h' -> valid_value h v -> valid_value h' v.
Proof.
  intros Hp Hv. destruct v; try exact I. simpl in *.
  pose proof (prefix_length _ _ Hp). lia.
Qed.

(** On a mapping of known names, [update] returns; it only extends the
    heap, leaves the other attributes alone and stores a one-level copy of
    every value. *)
Lemma update_known (kwargs : list (string * value)) : forall w : world,
  Forall (fun kv => in_defaults kv.1 = true) kwargs ->
  NoDup kwargs.*1 ->
  Forall (fun kv => valid_value (heap w) kv.2) kwargs ->
  exists w' : world,
    update kwargs w = (w', Return tt) /\
    heap w `prefix_of` heap w' /\
    (forall k : string, k ∉ kwargs.*1 -> self w' !! k = self w !! k) /\
    (forall (k : string) (v : value), (k, v) ∈ kwargs ->
       exists v' : value,
         self w' !! k = Some v' /\ shallow_copy_of (heap w) (heap w') v v').
Proof.
  induction kwargs as [| [k v] rest IH]; intros w Hk Hd Hv.
  - exists w. split; [reflexivity | split; [done | split]].
    + intros k _. reflexivity.
    + intros k v Hin. by apply elem_of_nil in Hin.
  - apply Forall_cons in Hk as [Hk Hks]. apply Forall_cons in Hv as [Hv Hvs].
    apply NoDup_cons in Hd as [Hnk Hd]. simpl in Hk, Hv.
    destruct (copy_copy_valid v w Hv) as (h1 & c & Hcopy & Hp1 & Hc).
    set (w2 := World h1 (<[k := c]> (self w))).
    destruct (IH w2 Hks Hd) as (w' & Hup & Hp2 & Hother & Hread).
    { eapply Forall_impl; [exact Hvs |]. intros kv. by apply valid_value_mono. }
    exists w'. split; [| split; [| split]].
    + cbn [update]. rewrite Hk. cbv [mbind M_bind]. rewrite Hcopy.
      cbv [setattr]. exact Hup.
    + by transitivity h1.
    + intros k' Hk'. rewrite fmap_cons, not_elem_of_cons in Hk'. destruct Hk' as [Hne Hk'].
      rewrite (Hother k' Hk'). subst w2. simpl. by apply lookup_insert_ne.
    + intros k' v' Hin. apply elem_of_cons in Hin as [Heq | Hin].
      * injection Heq as -> ->. exists c. split.
        -- rewrite (Hother k Hnk). subst w2. simpl. apply lookup_insert_eq.
        -- apply (shallow_copy_of_mono (heap w) (heap w) h1 (heap w'));
             [done | exact Hp2 | exact Hv | exact Hc].
      * destruct (Hread k' v' Hin) as (c' & Hlk & Hc'). exists c'. split; [exact Hlk |].
        rewrite Forall_forall in Hvs.
        apply (shallow_copy_of_mono (heap w) h1 (heap w') (heap w'));
          [exact Hp1 | done | exact (Hvs _ Hin) | exact Hc'].
Qed.

Lemma update_known_returns (kwargs : list (string * value)) : forall w : world,
  Forall (fun kv => in_defaults kv.1 = true) kwargs ->
  Forall (fun kv => valid_value (heap w) kv.2) kwargs ->
  exists w' : world,
    update kwargs w = (w', Return tt) /\ heap w `prefix_of` heap w'.
Proof.
  induction kwargs as [| [k v] rest IH]; intros w Hk Hv.
  - by exists w.
  - apply Forall_cons in Hk as [Hk Hks]. apply Forall_cons in Hv as [Hv Hvs].
    simpl in Hk, Hv.
    destruct (copy_copy_valid v w Hv) as (h1 & c & Hcopy & Hp1 & _).
    destruct (IH (World h1 (<[k := c]> (self w))) Hks) as (w' & Hup & Hp2).
    { eapply Forall_impl; [exact Hvs |]. intros kv. by apply valid_value_mono. }
    exists w'. split; [| by transitivity h1].
    cbn [update]. rewrite Hk. cbv [mbind M_bind]. rewrite Hcopy.
    cbv [setattr]. exact Hup.
Qed.

(** [update] on a concatenation runs the first part, then the second. *)
Lemma update_app (pre post : list (string * value)) (w : world) :
  update (pre ++ post) w = (update pre ≫= fun _ => update post) w.
Proof.
  revert w. induction pre as [| [k v] pre IH]; intros w; [reflexivity |].
  cbn [app update]. destruct (in_defaults k); [| reflexivity].
  cbv [mbind M_bind] in *.
  destruct (copy_copy v w) as [w1 [c | e]]; [| reflexivity].
  cbv [setattr]. apply IH.
Qed.

(** A mapping with an unknown name splits at the first one. *)
Lemma first_unknown (kwargs : list (string * value)) :
  Exists (fun kv => in_defaults kv.1 = false) kwargs ->
  exists (pre : list (string * value)) (name : string) (v : value)
         (post : list (string * value)),
    kwargs = (pre ++ (name, v) :: post)%list /\
    Forall (fun kv => in_defaults kv.1 = true) pre /\
    in_defaults name = false.
Proof.
  induction kwargs as [| [k v] rest IH]; intros Hex.
  - by apply Exists_nil in Hex.
  - destruct (in_defaults k) eqn:Hk.
    + apply Exists_cons in Hex as [Hex | Hex]; [simpl in Hex; congruence |].
      destruct (IH Hex) as (pre & name & v' & post & -> & Hpre & Hname).
      exists ((k, v) :: pre), name, v', post.
      split; [reflexivity | split; [| exact Hname]].
      by apply Forall_cons.
    + exists [], k, v, rest. by repeat split.
Qed.

(** C2, as the code has it: a mapping with a name outside the closed
    attribute set makes [update] raise the [ValueError] that names the first
    such name, in the order of the mapping; the names before it have been
    set by then, those after it have not: the world left is the one [update]
    leaves on the part of the mapping before that name. *)
Theorem update_unknown_key (kwargs : list (string * value)) (w : world) :
  Exists (fun kv => in_defaults kv.1 = false) kwargs ->
  Forall (fun kv => valid_value (heap w) kv.2) kwargs ->
  exists (pre : list (string * value)) (name : string) (v : value)
         (post : list (string * value)) (w' : world),
    kwargs = (pre ++ (name, v) :: post)%list /\
    Forall (fun kv => in_defaults kv.1 = true) pre /\
    in_defaults name = false /\
    update pre w = (w', Return tt) /\
    update kwargs w = (w', Raise (unknown_argument name)).
Proof.
  intros Hex Hv.
  destruct (first_unknown kwargs Hex) as (pre & name & v & post & -> & Hpre & Hname).
  apply Forall_app in Hv as [Hv _].
  destruct (update_known_returns pre w Hpre Hv) as (w' & Hup & _).
  exists pre, name, v, post, w'. repeat split; try done.
  rewrite update_app. cbv [mbind M_bind]. rewrite Hup.
  cbn [update]. rewrite Hname. reflexivity.
Qed.

Lemma update_unknown_key_witness :
  let kwargs := [("tracer", VStr "LRG"); ("bogus", VInt 1); ("z", VInt 1)] in
  Exists (fun kv => in_defaults kv.1 = false) kwargs /\
  Forall (fun kv => valid_value (heap (new [])) kv.2) kwargs /\
  exists (pre : list (string * value)) (name : string) (v : value)
         (post : list (string * value)) (w' : world),
    kwargs = (pre ++ (name, v) :: post)%list /\
    Forall (fun kv => in_defaults kv.1 = true) pre /\
    in_defaults name = false /\
    update pre (new []) = (w', Return tt) /\
    update kwargs (new []) = (w', Raise (unknown_argument name)).
Proof.
  assert (Hex : Exists (fun kv : string * value => in_defaults kv.1 = false)
                  [("tracer", VStr "LRG"); ("bogus", VInt 1); ("z", VInt 1)]).
  { apply Exists_cons_tl, Exists_cons_hd. reflexivity. }
  assert (Hv : Forall (fun kv : string * value => valid_value (heap (new [])) kv.2)
                 [("tracer", VStr "LRG"); ("bogus", VInt 1); ("z", VInt 1)])
    by repeat constructor.
  split; [exact Hex | split; [exact Hv |]].
  exact (update_unknown_key _ (new []) Hex Hv).
Defined.

(** C2 fails as stated: the call with [tracer='LRG', bogus=1] raises on
    [bogus], and the record it leaves has the tracer 'LRG' where it had
    'ELG'. *)
Lemma update_partial_application :
  let r := update [("tracer", VStr "LRG"); ("bogus", VInt 1)] (new []) in
  r.2 = Raise (unknown_argument "bogus") /\
  self (new []) !! "tracer" = Some (VStr "ELG") /\
  self r.1 !! "tracer" = Some (VStr "LRG").
Proof. vm_compute. repeat split. Qed.

(** C3, as the code has it: on a mapping of distinct names of the closed
    attribute set, [update] returns and each attribute then holds a
    one-level copy of the value supplied for it: the value itself when it is
    immutable, otherwise a new list or dict with the same elements, out of
    reach of any store into the caller's own objects. *)
Theorem update_roundtrip_shallow (kwargs : list (string * value)) (w : world) :
  Forall (fun kv => in_defaults kv.1 = true) kwargs ->
  NoDup kwargs.*1 ->
  Forall (fun kv => valid_value (heap w) kv.2) kwargs ->
  exists w' : world,
    update kwargs w = (w', Return tt) /\
    heap w `prefix_of` heap w' /\
    forall (k : string) (v : value), (k, v) ∈ kwargs ->
      exists v' : value,
        self w' !! k = Some v' /\ shallow_copy_of (heap w) (heap w') v v'.
Proof.
  intros Hk Hd Hv.
  destruct (update_known kwargs w Hk Hd Hv) as (w' & Hup & Hp & _ & Hread).
  by exists w'.
Qed.

Lemma update_roundtrip_shallow_witness :
  let kwargs := [("sculpt_attrs", VRef 1); ("rpcut", VFloat f0_5)] in
  Forall (fun kv => in_defaults kv.1 = true) kwargs /\
  NoDup kwargs.*1 /\
  Forall (fun kv => valid_value (heap caller_world) kv.2) kwargs /\
  exists w' : world,
    update kwargs caller_world = (w', Return tt) /\
    heap caller_world `prefix_of` heap w' /\
    forall (k : string) (v : value), (k, v) ∈ kwargs ->
      exists v' : value,
        self w' !! k = Some v' /\
        shallow_copy_of (heap caller_world) (heap w') v v'.
Proof.
  assert (Hk : Forall (fun kv : string * value => in_defaults kv.1 = true)
                 [("sculpt_attrs", VRef 1); ("rpcut", VFloat f0_5)])
    by repeat constructor.
  assert (Hd : NoDup [("sculpt_attrs", VRef 1); ("rpcut", VFloat f0_5)].*1)
    by compute_done.
  assert (Hv : Forall (fun kv : string * value => valid_value (heap caller_world) kv.2)
                 [("sculpt_attrs", VRef 1); ("rpcut", VFloat f0_5)])
    by repeat constructor.
  split; [exact Hk | split; [exact Hd | split; [exact Hv |]]].
  exact (update_roundtrip_shallow _ caller_world Hk Hd Hv).
Defined.

(** C3 fails as stated: after [update(sculpt_attrs=d)], the caller's
    [d['ells'].append(6)] shows in the record, whose list of multipoles
    reads [0, 2, 4, 6] where [0, 2, 4] was supplied. *)
Lemma update_shares_nested_list :
  let w1 := (update [("sculpt_attrs", VRef 1)] caller_world).1 in
  let w2 := ((ells ← read (fun w => subscript_str (heap w) (VRef 1) "ells");
              list_append ells (VInt 6)) w1).1 in
  read_ells w1 = Return [VInt 0; VInt 2; VInt 4] /\
  read_ells w2 = Return [VInt 0; VInt 2; VInt 4; VInt 6].
Proof. vm_compute. split; reflexivity. Qed.

(** ** The 'cubic' presets *)

Ltac unfold_methods :=
  cbv [set_default_config when_mockgen first_block second_block cubic_block
       unknown_tracer set_fdir_option load_global load_local
       get_path render derive_fdir
       mbind M_bind res_bind read mret M_ret res_ret raise getattr setattr].

(** C10: with generation 'cubic' and a tracer that starts with 'ELG',
    [set_default_config] merges a preset when the redshift point is 0.95,
    when it is 1.1 and when it is absent, and returns; for any other
    redshift point no preset is bound and the call stops on the unbound
    local [default_options], the record being left as it was. *)
Theorem set_default_config_cubic
    (py_repr : list obj -> value -> string) (w : world) (t : string) (z : value) :
  self w !! "mockgen" = Some (VStr "cubic") ->
  self w !! "tracer" = Some (VStr t) ->
  String.eqb (String.substring 0 3 t) "ELG" = true ->
  self w !! "z" = Some z ->
  let r := set_default_config py_repr [] w in
  if eq_float z f0_95 then
    r = update (cubic_preset_z0_95 z) w /\ r.2 = Return tt
  else if eq_float z f1_1 || is_none z then
    r = update cubic_preset_z1_1 w /\ r.2 = Return tt
  else
    r = (w, Raise (UnboundLocalError "default_options")).
Proof.
  intros Hm Ht Hp Hz r. subst r.
  unfold set_default_config. cbn [update]. unfold_methods.
  repeat first [ rewrite Hm | rewrite Ht | rewrite Hp | rewrite Hz
               | progress cbn [eq_str prefix3_eq String.eqb Ascii.eqb Bool.eqb] ].
  destruct z as [| b | n | x | s | vs | l];
    cbn [eq_float is_none orb];
    try change (Float64.eqb_Z ?k f0_95) with false;
    try change (Float64.eqb_Z ?k f1_1) with false;
    cbn [orb default_options subdir]; try reflexivity.
  all: try (destruct b; reflexivity).
  - split; [reflexivity | vm_compute; reflexivity].
  - destruct (Float64.eqb x f0_95); [| destruct (Float64.eqb x f1_1)];
      repeat first [ rewrite Hz | progress cbn [orb default_options subdir] ];
      try reflexivity.
    all: split; [reflexivity | vm_compute; reflexivity].
Qed.

Lemma set_default_config_cubic_witness :
  self cubic_z0_8 !! "mockgen" = Some (VStr "cubic") /\
  self cubic_z0_8 !! "tracer" = Some (VStr "ELG") /\
  String.eqb (String.substring 0 3 "ELG") "ELG" = true /\
  self cubic_z0_8 !! "z" = Some (VFloat f0_8) /\
  forall py_repr : list obj -> value -> string,
    set_default_config py_repr [] cubic_z0_8 =
      (cubic_z0_8, Raise (UnboundLocalError "default_options")).
Proof.
  split; [reflexivity | split; [reflexivity | split; [reflexivity | split; [reflexivity |]]]].
  intros py_repr.
  exact (set_default_config_cubic py_repr cubic_z0_8 "ELG" (VFloat f0_8)
           eq_refl eq_refl eq_refl eq_refl).
Defined.

(** ** What [get_path] writes *)

Lemma getattr_set_attr_ne (name name' : string) (v : value) (w : world) :
  name <> name' -> getattr (set_attr name v w) name' = getattr w name'.
Proof.
  intros Hne. unfold getattr, set_attr. cbn [self].
  by rewrite lookup_insert_ne.
Qed.

Lemma get_path_nil (py_repr : list obj -> value -> string) (w : world) :
  get_path py_repr [] w =
  match cut_segment w with
  | Return cut =>
      match derive_fdir py_repr w with
      | (w1, Return _) => (w1, render py_repr cut w1)
      | (w1, Raise e) => (w1, Raise e)
      end
  | Raise e => (w, Raise e)
  end.
Proof.
  unfold get_path. cbn [update]. cbv [mbind M_bind read mret M_ret].
  destruct (cut_segment w) as [cut | e]; reflexivity.
Qed.

(** The fdir block, case by case: it writes nothing unless [fdir] is the
    empty string, and then only [fdir]. *)
Lemma derive_fdir_eq (py_repr : list obj -> value -> string) (w : world) :
  derive_fdir py_repr w =
  match self w !! "fdir" with
  | None => (w, Raise (AttributeError "fdir"))
  | Some fdir =>
      if eq_str fdir "" then
        match self w !! "mockgen" with
        | None => (w, Raise (AttributeError "mockgen"))
        | Some mockgen =>
            let base := VStr (derived_base py_repr (heap w) mockgen) in
            match self w !! "ftype" with
            | None => (set_attr "fdir" base w, Raise (AttributeError "ftype"))
            | Some ftype =>
                match contains (heap w) "corr" ftype with
                | Return corr =>
                    (set_attr "fdir" (derived_fdir py_repr (heap w) mockgen corr) w,
                     Return tt)
                | Raise e => (set_attr "fdir" base w, Raise e)
                end
            end
        end
      else (w, Return tt)
  end.
Proof.
  cbv [derive_fdir mbind M_bind read mret M_ret res_ret getattr setattr set_attr
       derived_fdir derived_base].
  destruct (self w !! "fdir") as [fdir |]; [| reflexivity].
  destruct (eq_str fdir ""); [| reflexivity].
  destruct (self w !! "mockgen") as [mockgen |]; [| reflexivity].
  cbn [heap self]. rewrite lookup_insert_ne by done.
  destruct (self w !! "ftype") as [ftype |]; [| reflexivity].
  destruct (contains (heap w) "corr" ftype) as [[|] | e]; [| | reflexivity].
  all: cbn [heap self]; by rewrite insert_insert_eq.
Qed.

(** Whatever the fdir block does, the world it leaves is the one it found,
    or that world with another [fdir]. *)
Lemma derive_fdir_world (py_repr : list obj -> value -> string) (w : world) :
  (derive_fdir py_repr w).1 = w \/
  exists d : string, (derive_fdir py_repr w).1 = set_attr "fdir" (VStr d) w.
Proof.
  rewrite derive_fdir_eq.
  destruct (self w !! "fdir") as [fdir |]; [| by left].
  destruct (eq_str fdir ""); [| by left].
  destruct (self w !! "mockgen") as [mockgen |]; [| by left].
  destruct (self w !! "ftype") as [ftype |]; [| right; by eexists].
  destruct (contains (heap w) "corr" ftype) as [corr | e]; right; by eexists.
Qed.

Lemma get_path_world (py_repr : list obj -> value -> string) (w : world) :
  (get_path py_repr [] w).1 = (derive_fdir py_repr w).1 \/
  (get_path py_repr [] w).1 = w.
Proof.
  rewrite get_path_nil.
  destruct (cut_segment w) as [cut | e]; [| by right].
  destruct (derive_fdir py_repr w) as [w1 [[] | e]]; by left.
Qed.

(** C4, as the code has it: [get_path], called without arguments, leaves
    the heap and every attribute other than [fdir] as they were; it leaves
    the whole record as it was when [fdir] is not the empty string, and
    otherwise may store the derived directory in [fdir]. *)
Theorem get_path_frame (py_repr : list obj -> value -> string) (w : world)
    (name : string) :
  name <> "fdir" ->
  let w' := (get_path py_repr [] w).1 in
  heap w' = heap w /\
  self w' !! name = self w !! name /\
  (forall fdir : value,
     self w !! "fdir" = Some fdir -> eq_str fdir "" = false -> w' = w).
Proof.
  intros Hne w'. subst w'.
  assert (Hw : (get_path py_repr [] w).1 = w \/
               exists d : string, (get_path py_repr [] w).1 = set_attr "fdir" (VStr d) w).
  { destruct (get_path_world py_repr w) as [-> | ->]; [| by left].
    apply derive_fdir_world. }
  split; [| split].
  - destruct Hw as [-> | [d ->]]; reflexivity.
  - destruct Hw as [-> | [d ->]]; [reflexivity |].
    unfold set_attr. cbn [self]. by rewrite lookup_insert_ne.
  - intros fdir Hfdir Hnonempty.
    destruct (get_path_world py_repr w) as [-> | ->]; [| reflexivity].
    rewrite derive_fdir_eq, Hfdir, Hnonempty. reflexivity.
Qed.

Lemma get_path_frame_witness :
  "tracer" <> "fdir" /\
  forall py_repr : list obj -> value -> string,
    let w' := (get_path py_repr [] power_mock3).1 in
    heap w' = heap power_mock3 /\
    self w' !! "tracer" = self power_mock3 !! "tracer" /\
    (forall fdir : value,
       self power_mock3 !! "fdir" = Some fdir -> eq_str fdir "" = false ->
       w' = power_mock3).
Proof.
  assert (Hne : "tracer" <> "fdir") by discriminate.
  split; [exact Hne |].
  intros py_repr. exact (get_path_frame py_repr power_mock3 "tracer" Hne).
Defined.

(** C4 fails as stated: on a new instance, whose [fdir] is empty, [get_path]
    stores the derived directory in [fdir]. *)
Lemma get_path_writes_fdir :
  self (new []) !! "fdir" = Some (VStr "") /\
  forall py_repr : list obj -> value -> string,
    self (get_path py_repr [] (new [])).1 !! "fdir" =
      Some (VStr "/global/cfs/cdirs/desi/users/mpinon/secondGenMocksY1/pk").
Proof. split; [reflexivity |]. intros py_repr. vm_compute. reflexivity. Qed.

(** ** What each segment reads *)

Ltac solve_neq H :=
  let E := fresh in
  intros E; apply H; rewrite E; repeat constructor.

Ltac frame H :=
  intros H;
  repeat (rewrite (getattr_set_attr_ne _ _ _ _) by solve_neq H);
  reflexivity.

Lemma cut_segment_frame (name : string) (v : value) (w : world) :
  name ∉ ["rpcut"; "thetacut"] ->
  cut_segment (set_attr name v w) = cut_segment w.
Proof. unfold cut_segment. frame H. Qed.

Lemma comp_segment_frame (name : string) (v : value) (w : world) :
  name ∉ ["completeness"; "mockgen"] ->
  comp_segment (set_attr name v w) = comp_segment w.
Proof. unfold comp_segment. frame H. Qed.

Lemma z_segment_frame (name : string) (v : value) (w : world) :
  name ∉ ["zrange"; "z"] ->
  z_segment (set_attr name v w) = z_segment w.
Proof. unfold z_segment. frame H. Qed.

Lemma direct_segment_frame (name : string) (v : value) (cut : string) (w : world) :
  name ∉ ["directedges"] ->
  direct_segment cut (set_attr name v w) = direct_segment cut w.
Proof. unfold direct_segment. frame H. Qed.

Lemma sculpt_segment_frame (py_repr : list obj -> value -> string)
    (name : string) (v : value) (w : world) :
  name ∉ ["sculpt_attrs"] ->
  sculpt_segment py_repr (set_attr name v w) = sculpt_segment py_repr w.
Proof. unfold sculpt_segment. frame H. Qed.

Lemma fname_segment_frame (py_repr : list obj -> value -> string)
    (name : string) (v : value) (comp : option string)
    (z cut direct sculpt : string) (w : world) :
  name ∉ ["ftype"; "realization"; "tracer"; "region"; "weighting"; "nran"; "los";
          "cellsize"; "nmesh"; "boxsize"] ->
  fname_segment py_repr comp z cut direct sculpt (set_attr name v w) =
  fname_segment py_repr comp z cut direct sculpt w.
Proof. unfold fname_segment. frame H. Qed.

Lemma join_fdir_frame (name : string) (v : value) (fname : string) (w : world) :
  name ∉ ["fdir"] ->
  join_fdir fname (set_attr name v w) = join_fdir fname w.
Proof. unfold join_fdir. frame H. Qed.

Lemma set_attr_comm (name name' : string) (v v' : value) (w : world) :
  name <> name' ->
  set_attr name v (set_attr name' v' w) = set_attr name' v' (set_attr name v w).
Proof.
  intros Hne. unfold set_attr. cbn [heap self]. f_equal.
  by apply insert_insert_ne.
Qed.

Lemma heap_set_attr (name : string) (v : value) (w : world) :
  heap (set_attr name v w) = heap w.
Proof. reflexivity. Qed.

Lemma lookup_set_attr_ne (name name' : string) (v : value) (w : world) :
  name <> name' -> self (set_attr name v w) !! name' = self w !! name'.
Proof. intros Hne. unfold set_attr. cbn [self]. by rewrite lookup_insert_ne. Qed.

(** The fdir block commutes with the assignment of an attribute it does
    not read. *)
Lemma derive_fdir_set_attr (py_repr : list obj -> value -> string)
    (name : string) (v : value) (w : world) :
  name ∉ ["fdir"; "mockgen"; "ftype"] ->
  derive_fdir py_repr (set_attr name v w) =
  (set_attr name v (derive_fdir py_repr w).1, (derive_fdir py_repr w).2).
Proof.
  intros H.
  assert (H1 : name <> "fdir") by solve_neq H.
  assert (H2 : name <> "mockgen") by solve_neq H.
  assert (H3 : name <> "ftype") by solve_neq H.
  rewrite !derive_fdir_eq.
  rewrite !(lookup_set_attr_ne name) by done. rewrite !heap_set_attr.
  destruct (self w !! "fdir") as [fdir |]; [| reflexivity].
  destruct (eq_str fdir ""); [| reflexivity].
  destruct (self w !! "mockgen") as [mockgen |]; [| reflexivity].
  cbn zeta.
  destruct (self w !! "ftype") as [ftype |].
  - destruct (contains (heap w) "corr" ftype) as [corr | e]; cbn [fst snd];
      rewrite (set_attr_comm name "fdir") by done; reflexivity.
  - cbn [fst snd]. rewrite (set_attr_comm name "fdir") by done. reflexivity.
Qed.

(** What follows the fdir block reads none of the two cuts. *)
Lemma render_frame (py_repr : list obj -> value -> string)
    (name : string) (v : value) (cut : string) (w : world) :
  name ∉ ["completeness"; "mockgen"; "zrange"; "z"; "directedges"; "sculpt_attrs";
          "ftype"; "realization"; "tracer"; "region"; "weighting"; "nran"; "los";
          "cellsize"; "nmesh"; "boxsize"; "fdir"] ->
  render py_repr cut (set_attr name v w) = render py_repr cut w.
Proof.
  unfold render, comp_segment, z_segment, direct_segment, sculpt_segment,
    fname_segment, join_fdir.
  frame H.
Qed.

(** When a redshift range is set, what follows the fdir block does not read
    the redshift point. *)
Lemma render_ignores_z (py_repr : list obj -> value -> string)
    (v zrange : value) (cut : string) (w : world) :
  self w !! "zrange" = Some zrange ->
  is_none zrange = false ->
  render py_repr cut (set_attr "z" v w) = render py_repr cut w.
Proof.
  intros Hzr Hset.
  assert (Hz : z_segment (set_attr "z" v w) = z_segment w).
  { unfold z_segment. rewrite (getattr_set_attr_ne "z" "zrange") by done.
    rewrite (getattr_Some _ _ _ Hzr). cbn [mbind res_bind]. rewrite Hset.
    reflexivity. }
  unfold render. rewrite Hz.
  unfold comp_segment, direct_segment, sculpt_segment, fname_segment, join_fdir.
  repeat (rewrite (getattr_set_attr_ne "z") by done).
  reflexivity.
Qed.

(** An attribute that neither the cut, nor the fdir block, nor what follows
    reads does not change what [get_path] returns or raises. *)
Lemma get_path_ignores (py_repr : list obj -> value -> string)
    (name : string) (v : value) (w : world) :
  name ∉ ["fdir"; "mockgen"; "ftype"] ->
  cut_segment (set_attr name v w) = cut_segment w ->
  (forall cut : string,
     render py_repr cut (set_attr name v (derive_fdir py_repr w).1) =
     render py_repr cut (derive_fdir py_repr w).1) ->
  (get_path py_repr [] (set_attr name v w)).2 = (get_path py_repr [] w).2.
Proof.
  intros Hname Hcut Hrender.
  rewrite !get_path_nil, Hcut, derive_fdir_set_attr by exact Hname.
  destruct (cut_segment w) as [cut | e]; [| reflexivity].
  specialize (Hrender cut).
  destruct (derive_fdir py_repr w) as [w1 [[] | e]]; [| reflexivity].
  exact Hrender.
Qed.

(** ** What a returned path is made of *)

Lemma string_app_assoc (s1 s2 s3 : string) :
  (s1 ++ s2) ++ s3 = s1 ++ (s2 ++ s3).
Proof.
  induction s1 as [| c s1 IH]; [reflexivity |].
  change (String c ((s1 ++ s2) ++ s3) = String c (s1 ++ (s2 ++ s3))).
  by rewrite IH.
Qed.

(** A joined path ends with its second part. *)
Lemma path_join_suffix (a b : string) :
  exists pre : string, path_join a b = pre ++ b.
Proof.
  unfold path_join. destruct (startswith "/" b); [by exists "" |].
  destruct (String.eqb a "" || endswith "/" a); [by exists a |].
  exists (a ++ "/"). by rewrite string_app_assoc.
Qed.

Lemma fname_segment_unbound (py_repr : list obj -> value -> string)
    (z cut direct sculpt fname : string) (w : world) :
  fname_segment py_repr None z cut direct sculpt w <> Return fname.
Proof.
  unfold fname_segment. cbv [mbind res_bind].
  destruct (getattr w "ftype"); [| discriminate].
  destruct (getattr w "realization"); [| discriminate].
  destruct (getattr w "tracer"); discriminate.
Qed.

(** When [get_path] returns, every segment was computed, [comp] was bound,
    and the path is the directory found in [fdir] joined with the file
    name.  The segments read nothing the fdir block writes, so they are
    those of the record the call started from. *)
Lemma get_path_Return (py_repr : list obj -> value -> string) (w : world) (p : string) :
  (get_path py_repr [] w).2 = Return p ->
  exists cut comp z direct sculpt fname d : string,
    cut_segment w = Return cut /\
    comp_segment w = Return (Some comp) /\
    z_segment w = Return z /\
    direct_segment cut w = Return direct /\
    sculpt_segment py_repr w = Return sculpt /\
    fname_segment py_repr (Some comp) z cut direct sculpt w = Return fname /\
    self (get_path py_repr [] w).1 !! "fdir" = Some (VStr d) /\
    p = path_join d fname.
Proof.
  rewrite get_path_nil. intros H.
  destruct (cut_segment w) as [cut | e] eqn:Ecut; [| discriminate].
  pose proof (derive_fdir_world py_repr w) as Hw.
  destruct (derive_fdir py_repr w) as [w1 [[] | e]]; [| discriminate].
  cbn [fst snd] in *.
  assert (Hcomp : comp_segment w1 = comp_segment w).
  { destruct Hw as [-> | [d ->]]; [done |]. apply comp_segment_frame. compute_done. }
  assert (Hz : z_segment w1 = z_segment w).
  { destruct Hw as [-> | [d ->]]; [done |]. apply z_segment_frame. compute_done. }
  assert (Hdirect : direct_segment cut w1 = direct_segment cut w).
  { destruct Hw as [-> | [d ->]]; [done |]. apply direct_segment_frame. compute_done. }
  assert (Hsculpt : sculpt_segment py_repr w1 = sculpt_segment py_repr w).
  { destruct Hw as [-> | [d ->]]; [done |]. apply sculpt_segment_frame. compute_done. }
  assert (Hfname : forall comp z direct sculpt,
             fname_segment py_repr comp z cut direct sculpt w1 =
             fname_segment py_repr comp z cut direct sculpt w).
  { intros. destruct Hw as [-> | [d ->]]; [done |]. apply fname_segment_frame. compute_done. }
  unfold render in H. cbv [mbind res_bind] in H.
  rewrite Hcomp, Hz, Hdirect, Hsculpt in H.
  destruct (comp_segment w) as [comp | e] eqn:Ecomp; [| discriminate].
  destruct (z_segment w) as [z | e] eqn:Ez; [| discriminate].
  destruct (direct_segment cut w) as [direct | e] eqn:Edirect; [| discriminate].
  destruct (sculpt_segment py_repr w) as [sculpt | e] eqn:Esculpt; [| discriminate].
  rewrite Hfname in H.
  destruct (fname_segment py_repr comp z cut direct sculpt w) as [fname | e] eqn:Ef;
    [| discriminate].
  destruct comp as [comp |]; [| by apply fname_segment_unbound in Ef].
  unfold join_fdir, getattr in H. cbv [mbind res_bind mret res_ret] in H.
  destruct (self w1 !! "fdir") as [[| | | | d | |] |] eqn:Efdir; try discriminate.
  injection H as <-.
  exists cut, comp, z, direct, sculpt, fname, d.
  repeat split; assumption.
Qed.

(** The file name ends with the cut, the direct-edges and the sculpting
    segments, in this order, before the extension. *)
Lemma fname_segment_cut (py_repr : list obj -> value -> string)
    (comp : option string) (z cut direct sculpt fname : string) (w : world) :
  fname_segment py_repr comp z cut direct sculpt w = Return fname ->
  exists head : string, fname = head ++ cut ++ direct ++ sculpt ++ ".npy".
Proof.
  unfold fname_segment. cbv [mbind res_bind mret res_ret].
  destruct (getattr w "ftype") as [ftype | e]; [| discriminate].
  destruct (getattr w "realization") as [realization | e]; [| discriminate].
  destruct (getattr w "tracer") as [tracer | e]; [| discriminate].
  destruct comp as [comp |]; [| discriminate].
  destruct (getattr w "region") as [region | e]; [| discriminate].
  destruct (getattr w "weighting") as [weighting | e]; [| discriminate].
  destruct (getattr w "nran") as [nran | e]; [| discriminate].
  destruct (getattr w "los") as [los | e]; [| discriminate].
  destruct (getattr w "cellsize") as [cellsize | e]; [| discriminate].
  destruct (getattr w "nmesh") as [nmesh | e]; [| discriminate].
  destruct (getattr w "boxsize") as [boxsize | e]; [| discriminate].
  intros [= <-].
  exists (str py_repr (heap w) ftype ++ opt_attr py_repr (heap w) "mock" realization ++
          "_" ++ str py_repr (heap w) tracer ++ comp ++
          opt_attr py_repr (heap w) "" region ++ z ++
          (if is_none weighting then "" else str py_repr (heap w) weighting) ++
          opt_attr py_repr (heap w) "nran" nran ++ opt_attr py_repr (heap w) "los" los ++
          opt_attr py_repr (heap w) "cellsize" cellsize ++
          opt_attr py_repr (heap w) "nmesh" nmesh ++
          opt_attr py_repr (heap w) "boxsize" boxsize).
  rewrite !string_app_assoc. reflexivity.
Qed.

(** The redshift segment is part of the file name. *)
Lemma fname_segment_z (py_repr : list obj -> value -> string)
    (comp : option string) (z cut direct sculpt fname : string) (w : world) :
  fname_segment py_repr comp z cut direct sculpt w = Return fname ->
  exists head tail : string, fname = head ++ z ++ tail ++ ".npy".
Proof.
  unfold fname_segment. cbv [mbind res_bind mret res_ret].
  destruct (getattr w "ftype") as [ftype | e]; [| discriminate].
  destruct (getattr w "realization") as [realization | e]; [| discriminate].
  destruct (getattr w "tracer") as [tracer | e]; [| discriminate].
  destruct comp as [comp |]; [| discriminate].
  destruct (getattr w "region") as [region | e]; [| discriminate].
  destruct (getattr w "weighting") as [weighting | e]; [| discriminate].
  destruct (getattr w "nran") as [nran | e]; [| discriminate].
  destruct (getattr w "los") as [los | e]; [| discriminate].
  destruct (getattr w "cellsize") as [cellsize | e]; [| discriminate].
  destruct (getattr w "nmesh") as [nmesh | e]; [| discriminate].
  destruct (getattr w "boxsize") as [boxsize | e]; [| discriminate].
  intros [= <-].
  exists (str py_repr (heap w) ftype ++ opt_attr py_repr (heap w) "mock" realization ++
          "_" ++ str py_repr (heap w) tracer ++ comp ++
          opt_attr py_repr (heap w) "" region),
         ((if is_none weighting then "" else str py_repr (heap w) weighting) ++
          opt_attr py_repr (heap w) "nran" nran ++ opt_attr py_repr (heap w) "los" los ++
          opt_attr py_repr (heap w) "cellsize" cellsize ++
          opt_attr py_repr (heap w) "nmesh" nmesh ++
          opt_attr py_repr (heap w) "boxsize" boxsize ++ cut ++ direct ++ sculpt).
  rewrite !string_app_assoc. reflexivity.
Qed.

(** ** The cut segment *)

Lemma cut_segment_floats (w : world) (r t : spec_float) :
  self w !! "rpcut" = Some (VFloat r) ->
  self w !! "thetacut" = Some (VFloat t) ->
  cut_segment w = Return (cut_spec r t).
Proof.
  intros Hr Ht. unfold cut_segment, cut_spec.
  rewrite (getattr_Some _ _ _ Hr), (getattr_Some _ _ _ Ht).
  cbn [mbind res_bind truthy format_f mret res_ret].
  destruct (Float64.nonzero r); [reflexivity |].
  cbn [mbind res_bind]. destruct (Float64.nonzero t); reflexivity.
Qed.

(** C6: on every record whose two cuts are floats, the cut segment is the
    radial cut with one decimal after [_rpcut] when the radial cut is
    nonzero, else the angular cut with two decimals after [_thetacut] when it
    is nonzero, else empty; a returned path ends with this one segment, the
    direct-edges segment, the sculpting segment and the extension; and when
    the radial cut is nonzero the angular cut has no effect on the result,
    whatever its value. *)
Theorem cut_segment_radial_wins
    (py_repr : list obj -> value -> string) (w : world) (r t : spec_float) :
  self w !! "rpcut" = Some (VFloat r) ->
  self w !! "thetacut" = Some (VFloat t) ->
  cut_segment w = Return (cut_spec r t) /\
  (forall p : string,
     (get_path py_repr [] w).2 = Return p ->
     exists pre direct sculpt : string,
       p = pre ++ cut_spec r t ++ direct ++ sculpt ++ ".npy" /\
       direct_segment (cut_spec r t) w = Return direct /\
       sculpt_segment py_repr w = Return sculpt) /\
  (Float64.nonzero r = true ->
   forall v : value,
     (get_path py_repr [] (set_attr "thetacut" v w)).2 = (get_path py_repr [] w).2).
Proof.
  intros Hr Ht. pose proof (cut_segment_floats w r t Hr Ht) as Hcut.
  split; [exact Hcut | split].
  - intros p Hp.
    destruct (get_path_Return py_repr w p Hp)
      as (cut & comp & z & direct & sculpt & fname & d &
          Hcut' & _ & _ & Hdirect & Hsculpt & Hfname & _ & ->).
    rewrite Hcut in Hcut'. injection Hcut' as <-.
    destruct (fname_segment_cut _ _ _ _ _ _ _ _ Hfname) as [head ->].
    destruct (path_join_suffix d (head ++ cut_spec r t ++ direct ++ sculpt ++ ".npy"))
      as [pre ->].
    exists (pre ++ head), direct, sculpt.
    split; [| by split]. by rewrite string_app_assoc.
  - intros Hnz v. apply get_path_ignores.
    + compute_done.
    + unfold cut_segment.
      rewrite (getattr_set_attr_ne "thetacut" "rpcut") by done.
      rewrite (getattr_Some _ _ _ Hr).
      cbn [mbind res_bind truthy]. rewrite Hnz. reflexivity.
    + intros cut. apply render_frame. compute_done.
Qed.

Lemma cut_segment_radial_wins_witness :
  self both_cuts !! "rpcut" = Some (VFloat f2_5) /\
  self both_cuts !! "thetacut" = Some (VFloat f0_05) /\
  forall py_repr : list obj -> value -> string,
    cut_segment both_cuts = Return (cut_spec f2_5 f0_05) /\
    (forall p : string,
       (get_path py_repr [] both_cuts).2 = Return p ->
       exists pre direct sculpt : string,
         p = pre ++ cut_spec f2_5 f0_05 ++ direct ++ sculpt ++ ".npy" /\
         direct_segment (cut_spec f2_5 f0_05) both_cuts = Return direct /\
         sculpt_segment py_repr both_cuts = Return sculpt) /\
    (Float64.nonzero f2_5 = true ->
     forall v : value,
       (get_path py_repr [] (set_attr "thetacut" v both_cuts)).2 =
       (get_path py_repr [] both_cuts).2).
Proof.
  split; [reflexivity | split; [reflexivity |]].
  intros py_repr.
  exact (cut_segment_radial_wins py_repr both_cuts f2_5 f0_05 eq_refl eq_refl).
Defined.

(** ** The redshift segment *)

Lemma z_segment_typed (w : world)
    (zr : option (spec_float * spec_float)) (zp : option spec_float) :
  self w !! "zrange" = Some (zrange_value zr) ->
  self w !! "z" = Some (z_value zp) ->
  z_segment w = Return (z_spec zr zp).
Proof.
  intros Hzr Hzp. unfold z_segment, z_spec.
  rewrite (getattr_Some _ _ _ Hzr), (getattr_Some _ _ _ Hzp).
  destruct zr as [[lo hi] |]; [reflexivity |].
  destruct zp as [x |]; reflexivity.
Qed.

(** C7: on every record whose redshift range is absent or a pair of floats
    and whose redshift point is absent or a float, the redshift segment is
    [_z] followed by the two bounds with one decimal, joined by a dash,
    when the range is set, else [_z] followed by the point with three
    decimals when the point is set, else empty; a returned path holds this
    segment; and when the range is set the point has no effect on the
    result, whatever its value. *)
Theorem z_segment_range_wins
    (py_repr : list obj -> value -> string) (w : world)
    (zr : option (spec_float * spec_float)) (zp : option spec_float) :
  self w !! "zrange" = Some (zrange_value zr) ->
  self w !! "z" = Some (z_value zp) ->
  z_segment w = Return (z_spec zr zp) /\
  (forall p : string,
     (get_path py_repr [] w).2 = Return p ->
     exists pre post : string, p = pre ++ z_spec zr zp ++ post ++ ".npy") /\
  (is_Some zr ->
   forall v : value,
     (get_path py_repr [] (set_attr "z" v w)).2 = (get_path py_repr [] w).2).
Proof.
  intros Hzr Hzp. pose proof (z_segment_typed w zr zp Hzr Hzp) as Hz.
  split; [exact Hz | split].
  - intros p Hp.
    destruct (get_path_Return py_repr w p Hp)
      as (cut & comp & z & direct & sculpt & fname & d &
          _ & _ & Hz' & _ & _ & Hfname & _ & ->).
    rewrite Hz in Hz'. injection Hz' as <-.
    destruct (fname_segment_z _ _ _ _ _ _ _ _ Hfname) as (head & tail & ->).
    destruct (path_join_suffix d (head ++ z_spec zr zp ++ tail ++ ".npy")) as [pre ->].
    exists (pre ++ head), tail. by rewrite string_app_assoc.
  - intros [[lo hi] ->] v. apply get_path_ignores.
    + compute_done.
    + apply cut_segment_frame. compute_done.
    + intros cut.
      apply (render_ignores_z py_repr v (VTuple [VFloat lo; VFloat hi])); [| reflexivity].
      destruct (derive_fdir_world py_repr w) as [-> | [d ->]]; [exact Hzr |].
      by rewrite lookup_set_attr_ne.
Qed.

Lemma z_segment_range_wins_witness :
  self range_and_point !! "zrange" = Some (zrange_value (Some (f0_8, f1_6))) /\
  self range_and_point !! "z" = Some (z_value (Some f1_1)) /\
  forall py_repr : list obj -> value -> string,
    z_segment range_and_point = Return (z_spec (Some (f0_8, f1_6)) (Some f1_1)) /\
    (forall p : string,
       (get_path py_repr [] range_and_point).2 = Return p ->
       exists pre post : string,
         p = pre ++ z_spec (Some (f0_8, f1_6)) (Some f1_1) ++ post ++ ".npy") /\
    (is_Some (Some (f0_8, f1_6)) ->
     forall v : value,
       (get_path py_repr [] (set_attr "z" v range_and_point)).2 =
       (get_path py_repr [] range_and_point).2).
Proof.
  split; [reflexivity | split; [reflexivity |]].
  intros py_repr.
  exact (z_segment_range_wins py_repr range_and_point (Some (f0_8, f1_6)) (Some f1_1)
           eq_refl eq_refl).
Defined.

(** ** The completeness segment *)

Lemma comp_segment_bool (w : world) (b : bool) (g : string) :
  self w !! "completeness" = Some (VBool b) ->
  self w !! "mockgen" = Some (VStr g) ->
  comp_segment w =
  Return (if contains_str "first" g then Some (if b then "_complete" else "")
          else if contains_str "second" g then Some (if b then "_complete" else "_ffa")
          else if contains_str "cubic" g then Some ""
          else None).
Proof.
  intros Hc Hm. unfold comp_segment.
  rewrite (getattr_Some _ _ _ Hc), (getattr_Some _ _ _ Hm).
  cbn [mbind res_bind contains truthy mret res_ret].
  destruct (contains_str "first" g); [reflexivity |].
  cbn [mbind res_bind].
  destruct (contains_str "second" g); [reflexivity |].
  cbn [mbind res_bind].
  destruct (contains_str "cubic" g); reflexivity.
Qed.

Lemma derive_fdir_returns (py_repr : list obj -> value -> string) (w : world)
    (fdir ftype : string) :
  self w !! "fdir" = Some (VStr fdir) ->
  self w !! "ftype" = Some (VStr ftype) ->
  is_Some (self w !! "mockgen") ->
  (derive_fdir py_repr w).2 = Return tt.
Proof.
  intros Hfdir Hftype [mockgen Hm].
  rewrite derive_fdir_eq, Hfdir, Hm, Hftype.
  destruct (eq_str (VStr fdir) ""); reflexivity.
Qed.

Lemma direct_segment_bool (cut : string) (w : world) (b : bool) :
  self w !! "directedges" = Some (VBool b) ->
  exists direct : string, direct_segment cut w = Return direct.
Proof.
  intros Hd. unfold direct_segment. rewrite (getattr_Some _ _ _ Hd).
  cbn [mbind res_bind bool_and].
  destruct (negb (String.eqb cut "") && b); by eexists.
Qed.

Lemma sculpt_segment_ok (py_repr : list obj -> value -> string) (w : world) (v : value) :
  self w !! "sculpt_attrs" = Some v ->
  sculpt_ok (heap w) v ->
  exists sculpt : string, sculpt_segment py_repr w = Return sculpt.
Proof.
  intros Hv Hok. unfold sculpt_segment. rewrite (getattr_Some _ _ _ Hv).
  cbn [mbind res_bind].
  destruct Hok as [-> | (l & kvs & ells & orders & kobsmax & ktmax & capsig & difflfac &
                          covtype & -> & Hl & Hells & Hit & Hko & Hkt & Hcap & Hdiff & Hcov)].
  - by eexists.
  - cbn [is_none]. unfold subscript_str, deref. rewrite Hl.
    cbn [mbind res_bind]. rewrite Hells, Hko, Hkt, Hcap, Hdiff, Hcov.
    cbn [mbind res_bind]. rewrite Hit.
    cbn [mbind res_bind format_f format_d mret res_ret]. by eexists.
Qed.

Lemma fname_segment_raises (py_repr : list obj -> value -> string)
    (z cut direct sculpt : string) (w : world) :
  is_Some (self w !! "ftype") ->
  is_Some (self w !! "realization") ->
  is_Some (self w !! "tracer") ->
  fname_segment py_repr None z cut direct sculpt w = Raise (UnboundLocalError "comp").
Proof.
  intros [ftype Hf] [realization Hr] [tracer Ht]. unfold fname_segment.
  rewrite (getattr_Some _ _ _ Hf), (getattr_Some _ _ _ Hr), (getattr_Some _ _ _ Ht).
  reflexivity.
Qed.

(** A record of an unknown generation with a boolean completeness, well
    typed otherwise, gets as far as the file name and stops there on the
    unbound [comp]. *)
Lemma get_path_unbound_comp (py_repr : list obj -> value -> string) (w : world) :
  well_typed w ->
  is_Some (self w !! "mockgen") ->
  comp_segment w = Return None ->
  (get_path py_repr [] w).2 = Raise (UnboundLocalError "comp").
Proof.
  intros [[fdir Hfdir] [ftype Hftype] Hreal Htracer [r Hr] [t Ht]
          [zr Hzr] [zp Hzp] [b Hb] (sa & Hsa & Hok)] Hm Hcomp.
  rewrite get_path_nil, (cut_segment_floats w r t Hr Ht).
  pose proof (derive_fdir_returns py_repr w fdir ftype Hfdir Hftype Hm) as Hret.
  pose proof (derive_fdir_world py_repr w) as Hw.
  destruct (derive_fdir py_repr w) as [w1 res]. cbn [fst snd] in *. subst res.
  assert (Hlk : forall name : string, name <> "fdir" -> self w1 !! name = self w !! name).
  { intros name Hne. destruct Hw as [-> | [d ->]]; [done |].
    by apply lookup_set_attr_ne. }
  assert (Hheap : heap w1 = heap w) by (destruct Hw as [-> | [d ->]]; reflexivity).
  assert (Hcomp1 : comp_segment w1 = Return None).
  { destruct Hw as [-> | [d ->]]; [done |].
    rewrite comp_segment_frame by compute_done. exact Hcomp. }
  assert (Hz1 : z_segment w1 = Return (z_spec zr zp)).
  { apply z_segment_typed; by rewrite Hlk. }
  destruct (direct_segment_bool (cut_spec r t) w1 b) as [direct Hdirect];
    [by rewrite Hlk |].
  destruct (sculpt_segment_ok py_repr w1 sa) as [sculpt Hsculpt];
    [by rewrite Hlk | by rewrite Hheap |].
  unfold render. rewrite Hcomp1, Hz1, Hdirect, Hsculpt.
  cbn [mbind res_bind].
  rewrite fname_segment_raises; [reflexivity | | |]; rewrite Hlk by done; eauto.
Qed.

(** C9: on every record whose completeness is a boolean and whose
    generation is a string, the completeness segment is bound exactly when
    the generation contains 'first', 'second' or 'cubic', which the three
    generations of the data model do; for any other generation [get_path]
    never returns a path, and on a record that is well typed otherwise what
    it raises is the error of the unbound local [comp]. *)
Theorem comp_segment_unbound
    (py_repr : list obj -> value -> string) (w : world) (b : bool) (g : string) :
  self w !! "completeness" = Some (VBool b) ->
  self w !! "mockgen" = Some (VStr g) ->
  (names_generation g = true -> exists c : string, comp_segment w = Return (Some c)) /\
  (g ∈ ["first"; "second"; "cubic"] -> names_generation g = true) /\
  (names_generation g = false ->
     comp_segment w = Return None /\
     (forall p : string, (get_path py_repr [] w).2 <> Return p) /\
     (well_typed w -> (get_path py_repr [] w).2 = Raise (UnboundLocalError "comp"))).
Proof.
  intros Hc Hm. pose proof (comp_segment_bool w b g Hc Hm) as Hcomp.
  unfold names_generation.
  split; [| split].
  - intros Hg. rewrite Hcomp.
    destruct (contains_str "first" g); [by eexists |].
    destruct (contains_str "second" g); [by eexists |].
    destruct (contains_str "cubic" g); [by eexists | discriminate].
  - rewrite !elem_of_cons. intros [-> | [-> | [-> | Hg]]]; [reflexivity .. |].
    by apply elem_of_nil in Hg.
  - intros Hg.
    destruct (contains_str "first" g); [discriminate |].
    destruct (contains_str "second" g); [discriminate |].
    destruct (contains_str "cubic" g); [discriminate |].
    split; [exact Hcomp | split].
    + intros p Hp.
      destruct (get_path_Return py_repr w p Hp)
        as (cut & comp & z & direct & sculpt & fname & d & _ & Hcomp' & _).
      congruence.
    + intros Hwt. apply get_path_unbound_comp; [exact Hwt | by eexists | exact Hcomp].
Qed.

Lemma third_generation_well_typed : well_typed third_generation.
Proof.
  split; try (by eexists).
  - by exists None.
  - by exists None.
  - exists VNone. split; [reflexivity | by left].
Qed.

Lemma comp_segment_unbound_witness :
  self third_generation !! "completeness" = Some (VBool true) /\
  self third_generation !! "mockgen" = Some (VStr "third") /\
  forall py_repr : list obj -> value -> string,
    (names_generation "third" = true ->
     exists c : string, comp_segment third_generation = Return (Some c)) /\
    ("third" ∈ ["first"; "second"; "cubic"] -> names_generation "third" = true) /\
    (names_generation "third" = false ->
       comp_segment third_generation = Return None /\
       (forall p : string, (get_path py_repr [] third_generation).2 <> Return p) /\
       (well_typed third_generation ->
        (get_path py_repr [] third_generation).2 = Raise (UnboundLocalError "comp"))).
Proof.
  split; [reflexivity | split; [reflexivity |]].
  intros py_repr.
  exact (comp_segment_unbound py_repr third_generation true "third" eq_refl eq_refl).
Defined.

(** ** Determinism *)

Lemma getattr_same (w1 w2 : world) (name : string) :
  same_attributes w1 w2 -> in_defaults name = true ->
  getattr w1 name = getattr w2 name.
Proof. intros [_ Ha] Hn. unfold getattr. by rewrite (Ha name Hn). Qed.

Ltac same H :=
  intros H; rewrite !(getattr_same _ _ _ H) by reflexivity;
  destruct H as [-> _]; reflexivity.

Lemma cut_segment_same (w1 w2 : world) :
  same_attributes w1 w2 -> cut_segment w1 = cut_segment w2.
Proof. unfold cut_segment. same H. Qed.

Lemma render_same (py_repr : list obj -> value -> string) (cut : string)
    (w1 w2 : world) :
  same_attributes w1 w2 -> render py_repr cut w1 = render py_repr cut w2.
Proof.
  unfold render, comp_segment, z_segment, direct_segment, sculpt_segment,
    fname_segment, join_fdir.
  same H.
Qed.

Lemma same_attributes_set_attr (name : string) (v : value) (w1 w2 : world) :
  same_attributes w1 w2 -> same_attributes (set_attr name v w1) (set_attr name v w2).
Proof.
  intros [Hh Ha]. split; [exact Hh |].
  intros k Hk. unfold set_attr. cbn [self].
  destruct (decide (name = k)) as [-> | Hne].
  - by rewrite !lookup_insert_eq.
  - rewrite !lookup_insert_ne by done. by apply Ha.
Qed.

Lemma derive_fdir_same (py_repr : list obj -> value -> string) (w1 w2 : world) :
  same_attributes w1 w2 ->
  (derive_fdir py_repr w1).2 = (derive_fdir py_repr w2).2 /\
  same_attributes (derive_fdir py_repr w1).1 (derive_fdir py_repr w2).1.
Proof.
  intros H. pose proof H as [Hh Ha].
  rewrite !derive_fdir_eq.
  rewrite (Ha "fdir"), (Ha "mockgen"), (Ha "ftype"), Hh by reflexivity.
  destruct (self w2 !! "fdir") as [fdir |]; [| by split].
  destruct (eq_str fdir ""); [| by split].
  destruct (self w2 !! "mockgen") as [mockgen |]; [| by split].
  cbn zeta.
  destruct (self w2 !! "ftype") as [ftype |].
  - destruct (contains (heap w2) "corr" ftype) as [corr | e];
      (split; [reflexivity | by apply same_attributes_set_attr]).
  - split; [reflexivity | by apply same_attributes_set_attr].
Qed.

Lemma path_join_nonempty (c : Ascii.ascii) (a b : string) :
  startswith "/" b = false ->
  eq_str (VStr (path_join (String c a) b)) "" = false.
Proof.
  intros Hb. unfold path_join. rewrite Hb.
  destruct (String.eqb (String c a) "" || endswith "/" (String c a)); reflexivity.
Qed.

(** A derived directory is never the empty string. *)
Lemma derived_fdir_nonempty (py_repr : list obj -> value -> string)
    (h : list obj) (mockgen : value) (corr : bool) :
  eq_str (derived_fdir py_repr h mockgen corr) "" = false.
Proof.
  destruct corr.
  - exact (path_join_nonempty _
             ("global/cfs/cdirs/desi/users/mpinon/" ++ str py_repr h mockgen ++ "GenMocksY1")
             "xi" eq_refl).
  - exact (path_join_nonempty _
             ("global/cfs/cdirs/desi/users/mpinon/" ++ str py_repr h mockgen ++ "GenMocksY1")
             "pk" eq_refl).
Qed.

(** Run on the world it leaves, the fdir block changes nothing. *)
Lemma derive_fdir_idem (py_repr : list obj -> value -> string) (w w1 : world) :
  derive_fdir py_repr w = (w1, Return tt) ->
  derive_fdir py_repr w1 = (w1, Return tt).
Proof.
  rewrite derive_fdir_eq.
  destruct (self w !! "fdir") as [fdir |] eqn:Hfdir; [| discriminate].
  destruct (eq_str fdir "") eqn:Hempty.
  - destruct (self w !! "mockgen") as [mockgen |]; [| discriminate].
    cbn zeta.
    destruct (self w !! "ftype") as [ftype |]; [| discriminate].
    destruct (contains (heap w) "corr" ftype) as [corr | e]; [| discriminate].
    intros [= <-]. rewrite derive_fdir_eq.
    unfold set_attr at 1. cbn [self]. rewrite lookup_insert_eq.
    by rewrite derived_fdir_nonempty.
  - intros [= <-]. by rewrite derive_fdir_eq, Hfdir, Hempty.
Qed.

(** C8: two records with the same heap and the same attributes get the
    same result from [get_path], path or exception; and once [get_path] has
    returned a path, calling it again on the record it left returns the
    same path and leaves the record as it is. *)
Theorem get_path_deterministic
    (py_repr : list obj -> value -> string) (w1 w2 : world) :
  same_attributes w1 w2 ->
  (get_path py_repr [] w1).2 = (get_path py_repr [] w2).2 /\
  (forall p : string,
     (get_path py_repr [] w1).2 = Return p ->
     get_path py_repr [] (get_path py_repr [] w1).1 =
       ((get_path py_repr [] w1).1, Return p)).
Proof.
  intros H. split.
  - rewrite !get_path_nil, (cut_segment_same w1 w2 H).
    destruct (cut_segment w2) as [cut | e]; [| reflexivity].
    destruct (derive_fdir_same py_repr w1 w2 H) as [Hres Hsame].
    destruct (derive_fdir py_repr w1) as [w1' r1].
    destruct (derive_fdir py_repr w2) as [w2' r2].
    cbn [fst snd] in *. subst r2.
    destruct r1 as [[] | e]; [| reflexivity].
    cbn [snd]. by apply render_same.
  - intros p. rewrite (get_path_nil py_repr w1).
    destruct (cut_segment w1) as [cut | e] eqn:Hcut; [| discriminate].
    pose proof (derive_fdir_world py_repr w1) as Hw.
    destruct (derive_fdir py_repr w1) as [w1' [[] | e]] eqn:Hd; [| discriminate].
    cbn [fst snd] in *. intros Hp.
    assert (Hcut' : cut_segment w1' = Return cut).
    { destruct Hw as [-> | [d ->]]; [exact Hcut |].
      rewrite cut_segment_frame by compute_done. exact Hcut. }
    by rewrite get_path_nil, Hcut', (derive_fdir_idem py_repr w1 w1' Hd), Hp.
Qed.

Lemma annotated_same_attributes : same_attributes annotated (new []).
Proof.
  split; [reflexivity |].
  intros name Hn. apply lookup_set_attr_ne.
  intros <-. discriminate Hn.
Qed.

Lemma get_path_deterministic_witness :
  same_attributes annotated (new []) /\
  forall py_repr : list obj -> value -> string,
    (get_path py_repr [] annotated).2 = (get_path py_repr [] (new [])).2 /\
    (forall p : string,
       (get_path py_repr [] annotated).2 = Return p ->
       get_path py_repr [] (get_path py_repr [] annotated).1 =
         ((get_path py_repr [] annotated).1, Return p)).
Proof.
  split; [exact annotated_same_attributes |].
  intros py_repr.
  exact (get_path_deterministic py_repr annotated (new []) annotated_same_attributes).
Defined.


(** * Further properties of the class *)

(** ** What the methods may write *)

Lemma keeps_ret {A : Type} (a : A) : keeps_closed_set (mret a : M A).
Proof. intros w. cbn. repeat split; auto. Qed.

Lemma keeps_raise {A : Type} (e : exn) : keeps_closed_set (raise e : M A).
Proof. intros w. cbn. repeat split; auto. Qed.

Lemma keeps_read {A : Type} (r : world -> res A) : keeps_closed_set (read r).
Proof. intros w. cbn. repeat split; auto. Qed.

Lemma keeps_alloc (o : obj) : keeps_closed_set (alloc o).
Proof. intros w. cbn. repeat split; auto. by apply prefix_app_r. Qed.

Lemma keeps_setattr (name : string) (v : value) :
  in_defaults name = true -> keeps_closed_set (setattr name v).
Proof.
  intros Hn w. cbn. split; [done | split]; intros k Hk.
  - destruct (decide (name = k)) as [-> | Hne].
    + rewrite lookup_insert_eq. by eexists.
    + by rewrite lookup_insert_ne.
  - destruct (decide (name = k)) as [-> | Hne]; [by right | left].
    by rewrite lookup_insert_ne in Hk.
Qed.

Lemma keeps_bind {A B : Type} (m : M A) (f : A -> M B) :
  keeps_closed_set m -> (forall a : A, keeps_closed_set (f a)) ->
  keeps_closed_set (m ≫= f).
Proof.
  intros Hm Hf w. destruct (Hm w) as (Hh & Hk & Hn).
  rewrite M_bind_eq. destruct (m w) as [w1 [a | e]]; cbn [fst] in *; [| done].
  destruct (Hf a w1) as (Hh' & Hk' & Hn').
  split; [by transitivity (heap w1) | split]; intros k Hx.
  - by apply Hk', Hk.
  - destruct (Hn' k Hx) as [Hy | Hy]; [by apply Hn | by right].
Qed.

Lemma keeps_copy_copy (v : value) : keeps_closed_set (copy_copy v).
Proof.
  destruct v; try apply keeps_ret.
  apply keeps_bind; [apply keeps_read | intros o; apply keeps_alloc].
Qed.

Lemma keeps_update (kwargs : list (string * value)) : keeps_closed_set (update kwargs).
Proof.
  induction kwargs as [| [name v] rest IH]; [apply keeps_ret |].
  cbn [update]. destruct (in_defaults name) eqn:Hn; [| apply keeps_raise].
  apply keeps_bind; [apply keeps_copy_copy | intros c].
  apply keeps_bind; [by apply keeps_setattr | intros _; exact IH].
Qed.

Ltac keeps :=
  repeat first
    [ apply keeps_ret | apply keeps_raise | apply keeps_read | apply keeps_alloc
    | apply keeps_update | apply keeps_setattr; reflexivity
    | apply keeps_bind; [| intros ?]
    | match goal with
      | |- keeps_closed_set (if ?b then _ else _) => destruct b
      | |- keeps_closed_set (match ?x with _ => _ end) => destruct x
      end ].

Lemma keeps_get_path (py_repr : list obj -> value -> string)
    (kwargs : list (string * value)) :
  keeps_closed_set (get_path py_repr kwargs).
Proof. unfold get_path, derive_fdir. keeps. Qed.

Lemma keeps_set_default_config (py_repr : list obj -> value -> string)
    (kwargs : list (string * value)) :
  keeps_closed_set (set_default_config py_repr kwargs).
Proof.
  unfold set_default_config, when_mockgen, first_block, second_block, cubic_block,
    unknown_tracer, set_fdir_option.
  keeps.
Qed.

Lemma closed_attributes_kept {A : Type} (m : M A) (w : world) :
  keeps_closed_set m -> closed_attributes w -> closed_attributes (m w).1.
Proof.
  intros Hm Hw name. destruct (Hm w) as (_ & Hk & Hn). split.
  - intros Hx. destruct (Hn name Hx) as [Hy | Hy]; [by apply Hw | exact Hy].
  - intros Hx. by apply Hk, Hw.
Qed.

Lemma copy_copy_self (v : value) (w : world) :
  self (copy_copy v w).1 = self w /\ heap w `prefix_of` heap (copy_copy v w).1.
Proof.
  destruct v as [| b | n | x | s | vs | l]; try done.
  cbv [copy_copy mbind M_bind read deref alloc].
  destruct (heap w !! l); cbn; [| done].
  split; [reflexivity | by apply prefix_app_r].
Qed.

Lemma update_untouched (kwargs : list (string * value)) : forall (w : world) (name : string),
  name ∉ kwargs.*1 ->
  self (update kwargs w).1 !! name = self w !! name.
Proof.
  induction kwargs as [| [k v] rest IH]; intros w name Hn; [reflexivity |].
  rewrite fmap_cons, not_elem_of_cons in Hn. destruct Hn as [Hne Hn].
  cbn [update]. destruct (in_defaults k); [| reflexivity].
  cbv [mbind M_bind]. destruct (copy_copy_self v w) as [Hs _].
  destruct (copy_copy v w) as [w1 [c | e]]; cbn [fst] in *; [| by rewrite Hs].
  cbv [setattr]. rewrite IH by exact Hn. cbn [self].
  rewrite lookup_insert_ne by done. by rewrite Hs.
Qed.

(** X1: whatever its outcome, [update] leaves the attributes that the
    mapping does not name as they were, and the objects of the heap as they
    were: it only adds the copies it makes. *)
Theorem update_frame (kwargs : list (string * value)) (w : world) (name : string) :
  name ∉ kwargs.*1 ->
  self (update kwargs w).1 !! name = self w !! name /\
  heap w `prefix_of` heap (update kwargs w).1.
Proof.
  intros Hn. split; [by apply update_untouched |].
  by destruct (keeps_update kwargs w) as [Hh _].
Qed.

Lemma update_frame_witness :
  let kwargs := [("sculpt_attrs", VRef 1); ("bogus", VInt 1); ("z", VInt 1)] in
  ("tracer" ∉ kwargs.*1) /\
  self (update kwargs caller_world).1 !! "tracer" = self caller_world !! "tracer" /\
  heap caller_world `prefix_of` heap (update kwargs caller_world).1.
Proof.
  assert (Hn : "tracer" ∉ [("sculpt_attrs", VRef 1); ("bogus", VInt 1); ("z", VInt 1)].*1)
    by compute_done.
  split; [exact Hn |].
  exact (update_frame _ caller_world "tracer" Hn).
Defined.

Lemma in_defaults_elem (name : string) :
  in_defaults name = true -> exists v : value, (name, v) ∈ _defaults.
Proof.
  unfold in_defaults. rewrite existsb_exists. intros ([k v] & Hin & Heq).
  apply String.eqb_eq in Heq. cbn in Heq. subst k.
  exists v. by apply list_elem_of_In.
Qed.

Lemma init_closed (kwargs : list (string * value)) (h : list obj) :
  closed_attributes (__init__ kwargs (World h ∅)).1.
Proof.
  unfold __init__.
  assert (Hd : closed_attributes (update _defaults (World h ∅)).1).
  { intros name. split.
    - intros Hx.
      destruct (keeps_update _defaults (World h ∅)) as (_ & _ & Hn).
      destruct (Hn name Hx) as [Hy | Hy]; [| exact Hy].
      cbn in Hy. rewrite lookup_empty in Hy. by destruct Hy.
    - intros Hx. destruct (in_defaults_elem name Hx) as [v Hv].
      destruct (update_known _defaults (World h ∅)) as (w' & Hup & _ & _ & Hread).
      + repeat constructor.
      + compute_done.
      + repeat constructor.
      + rewrite Hup. destruct (Hread name v Hv) as (v' & Hlk & _). by exists v'. }
  rewrite M_bind_eq.
  destruct (update _defaults (World h ∅)) as [w1 [[] | e]]; cbn [fst] in *; [| exact Hd].
  by apply closed_attributes_kept; [apply keeps_update |].
Qed.

(** X2: the constructor, called with keywords, leaves an instance that
    binds every attribute of the closed set and no other name, whether the
    merge of the keywords returned or raised. *)
Theorem init_closed_attributes (kwargs : list (string * value)) (h : list obj) :
  closed_attributes (__init__ kwargs (World h ∅)).1.
Proof. apply init_closed. Qed.

(** X3: the three methods keep the closed attribute set, whatever they are
    called with and whether they return or raise: on an instance that binds
    exactly the attributes of the closed set, so does the instance they
    leave. *)
Theorem methods_keep_closed_attributes
    (py_repr : list obj -> value -> string) (kwargs : list (string * value))
    (w : world) :
  closed_attributes w ->
  closed_attributes (update kwargs w).1 /\
  closed_attributes (get_path py_repr kwargs w).1 /\
  closed_attributes (set_default_config py_repr kwargs w).1.
Proof.
  intros Hw. split; [| split]; apply closed_attributes_kept; try exact Hw.
  - apply keeps_update.
  - apply keeps_get_path.
  - apply keeps_set_default_config.
Qed.

Lemma methods_keep_closed_attributes_witness :
  let kwargs := [("ftype", VStr "wmatrix_smooth_sculpt"); ("bogus", VInt 1)] in
  closed_attributes (new []) /\
  forall py_repr : list obj -> value -> string,
    closed_attributes (update kwargs (new [])).1 /\
    closed_attributes (get_path py_repr kwargs (new [])).1 /\
    closed_attributes (set_default_config py_repr kwargs (new [])).1.
Proof.
  split; [exact (init_closed [] []) |].
  intros py_repr.
  exact (methods_keep_closed_attributes py_repr _ (new []) (init_closed [] [])).
Defined.

(** ** Records on which [get_path] returns *)

Lemma closed_attributes_bound (w : world) (name : string) :
  closed_attributes w -> in_defaults name = true -> is_Some (self w !! name).
Proof. intros Hw Hn. by apply Hw. Qed.

Lemma comp_segment_ok (w : world) :
  completeness_ok w -> exists c : string, comp_segment w = Return (Some c).
Proof.
  intros [[s Hs] | (b & g & Hb & Hg & Hn)].
  - exists s. unfold comp_segment. by rewrite (getattr_Some _ _ _ Hs).
  - rewrite (comp_segment_bool w b g Hb Hg). unfold names_generation in Hn.
    destruct (contains_str "first" g); [by eexists |].
    destruct (contains_str "second" g); [by eexists |].
    destruct (contains_str "cubic" g); [by eexists | discriminate].
Qed.

Lemma fname_segment_returns (py_repr : list obj -> value -> string)
    (comp z cut direct sculpt : string) (w : world) :
  (forall name : string, in_defaults name = true -> is_Some (self w !! name)) ->
  exists fname : string,
    fname_segment py_repr (Some comp) z cut direct sculpt w = Return fname.
Proof.
  intros Hw. unfold fname_segment.
  destruct (Hw "ftype" eq_refl) as [ftype H1].
  destruct (Hw "realization" eq_refl) as [realization H2].
  destruct (Hw "tracer" eq_refl) as [tracer H3].
  destruct (Hw "region" eq_refl) as [region H4].
  destruct (Hw "weighting" eq_refl) as [weighting H5].
  destruct (Hw "nran" eq_refl) as [nran H6].
  destruct (Hw "los" eq_refl) as [los H7].
  destruct (Hw "cellsize" eq_refl) as [cellsize H8].
  destruct (Hw "nmesh" eq_refl) as [nmesh H9].
  destruct (Hw "boxsize" eq_refl) as [boxsize H10].
  rewrite (getattr_Some _ _ _ H1), (getattr_Some _ _ _ H2), (getattr_Some _ _ _ H3),
    (getattr_Some _ _ _ H4), (getattr_Some _ _ _ H5), (getattr_Some _ _ _ H6),
    (getattr_Some _ _ _ H7), (getattr_Some _ _ _ H8), (getattr_Some _ _ _ H9),
    (getattr_Some _ _ _ H10).
  by eexists.
Qed.

(** X4: on a record that binds every attribute, whose attributes have the
    types of the data model, and whose completeness is a string or a boolean
    next to a generation that names 'first', 'second' or 'cubic', [get_path]
    raises nothing: it returns a path, the directory then held by [fdir]
    joined with a file name. *)
Theorem get_path_returns (py_repr : list obj -> value -> string) (w : world) :
  closed_attributes w ->
  well_typed w ->
  completeness_ok w ->
  exists p d fname : string,
    (get_path py_repr [] w).2 = Return p /\
    self (get_path py_repr [] w).1 !! "fdir" = Some (VStr d) /\
    p = path_join d fname.
Proof.
  intros Hclosed [[fdir Hfdir] [ftype Hftype] Hreal Htracer [r Hr] [t Ht]
                  [zr Hzr] [zp Hzp] [b Hb] (sa & Hsa & Hok)] Hcomp.
  destruct (comp_segment_ok w Hcomp) as [comp Hc].
  rewrite get_path_nil, (cut_segment_floats w r t Hr Ht).
  pose proof (derive_fdir_returns py_repr w fdir ftype Hfdir Hftype
                (closed_attributes_bound w "mockgen" Hclosed eq_refl)) as Hret.
  pose proof (derive_fdir_world py_repr w) as Hw.
  destruct (derive_fdir py_repr w) as [w1 res]. cbn [fst snd] in *. subst res.
  assert (Hlk : forall name : string, name <> "fdir" -> self w1 !! name = self w !! name).
  { intros name Hne. destruct Hw as [-> | [d ->]]; [done |].
    by apply lookup_set_attr_ne. }
  assert (Hheap : heap w1 = heap w) by (destruct Hw as [-> | [d ->]]; reflexivity).
  assert (Hd : exists d : string, self w1 !! "fdir" = Some (VStr d)).
  { destruct Hw as [-> | [d ->]]; [by exists fdir | exists d].
    unfold set_attr. cbn [self]. apply lookup_insert_eq. }
  destruct Hd as [d Hd].
  assert (Hbound : forall name : string,
             in_defaults name = true -> is_Some (self w1 !! name)).
  { intros name Hn. destruct (decide (name = "fdir")) as [-> | Hne]; [by eexists |].
    rewrite Hlk by done. by apply Hclosed. }
  assert (Hcomp1 : comp_segment w1 = Return (Some comp)).
  { destruct Hw as [-> | [d' ->]]; [done |].
    rewrite comp_segment_frame by compute_done. exact Hc. }
  assert (Hz1 : z_segment w1 = Return (z_spec zr zp)).
  { apply z_segment_typed; by rewrite Hlk. }
  destruct (direct_segment_bool (cut_spec r t) w1 b) as [direct Hdirect];
    [by rewrite Hlk |].
  destruct (sculpt_segment_ok py_repr w1 sa) as [sculpt Hsculpt];
    [by rewrite Hlk | by rewrite Hheap |].
  destruct (fname_segment_returns py_repr comp (z_spec zr zp) (cut_spec r t)
              direct sculpt w1 Hbound) as [fname Hfname].
  exists (path_join d fname), d, fname.
  split; [| by split].
  cbn [snd]. unfold render. rewrite Hcomp1, Hz1, Hdirect, Hsculpt.
  cbn [mbind res_bind]. rewrite Hfname. cbn [mbind res_bind].
  unfold join_fdir. by rewrite (getattr_Some _ _ _ Hd).
Qed.

Lemma new_well_typed : well_typed (new []).
Proof.
  split; try (by eexists).
  - by exists None.
  - by exists None.
  - exists VNone. split; [reflexivity | by left].
Qed.

Lemma new_completeness_ok : completeness_ok (new []).
Proof. right. by exists true, "second". Qed.

Lemma get_path_returns_witness :
  closed_attributes (new []) /\
  well_typed (new []) /\
  completeness_ok (new []) /\
  forall py_repr : list obj -> value -> string,
    exists p d fname : string,
      (get_path py_repr [] (new [])).2 = Return p /\
      self (get_path py_repr [] (new [])).1 !! "fdir" = Some (VStr d) /\
      p = path_join d fname.
Proof.
  split; [exact (init_closed [] []) | split; [exact new_well_typed |
    split; [exact new_completeness_ok |]]].
  intros py_repr.
  exact (get_path_returns py_repr (new []) (init_closed [] []) new_well_typed
           new_completeness_ok).
Defined.

(** ** Attributes without effect *)

Lemma get_path_ignores_at (py_repr : list obj -> value -> string)
    (name : string) (v : value) (w : world) :
  name ∉ ["fdir"; "mockgen"; "ftype"] ->
  cut_segment (set_attr name v w) = cut_segment w ->
  (forall cut : string,
     cut_segment w = Return cut ->
     render py_repr cut (set_attr name v (derive_fdir py_repr w).1) =
     render py_repr cut (derive_fdir py_repr w).1) ->
  (get_path py_repr [] (set_attr name v w)).2 = (get_path py_repr [] w).2.
Proof.
  intros Hname Hcut Hrender.
  rewrite !get_path_nil, Hcut, derive_fdir_set_attr by exact Hname.
  destruct (cut_segment w) as [cut | e]; [| reflexivity].
  specialize (Hrender cut eq_refl).
  destruct (derive_fdir py_repr w) as [w1 [[] | e]]; [| reflexivity].
  exact Hrender.
Qed.

Lemma set_attr_set_attr (name : string) (v v' : value) (w : world) :
  set_attr name v (set_attr name v' w) = set_attr name v w.
Proof. unfold set_attr. cbn [heap self]. by rewrite insert_insert_eq. Qed.

Lemma lookup_after_fdir (py_repr : list obj -> value -> string) (w : world)
    (name : string) :
  name <> "fdir" ->
  self (derive_fdir py_repr w).1 !! name = self w !! name.
Proof.
  intros Hne. destruct (derive_fdir_world py_repr w) as [-> | [d ->]]; [done |].
  by apply lookup_set_attr_ne.
Qed.

Lemma cut_spec_empty (r t : spec_float) :
  negb (String.eqb (cut_spec r t) "") = Float64.nonzero r || Float64.nonzero t.
Proof.
  unfold cut_spec. destruct (Float64.nonzero r); [reflexivity |].
  destruct (Float64.nonzero t); reflexivity.
Qed.

(** X5: on a record whose cuts are floats and whose direct-edges flag is a
    boolean, the direct-edges segment is [_directedges_max5000] when one of
    the cuts is nonzero and the flag is true, and empty otherwise; with both
    cuts at zero the flag has no effect on what [get_path] returns or
    raises. *)
Theorem direct_segment_needs_cut
    (py_repr : list obj -> value -> string) (w : world) (r t : spec_float) (b : bool) :
  self w !! "rpcut" = Some (VFloat r) ->
  self w !! "thetacut" = Some (VFloat t) ->
  self w !! "directedges" = Some (VBool b) ->
  direct_segment (cut_spec r t) w = Return (direct_spec r t b) /\
  (Float64.nonzero r = false -> Float64.nonzero t = false ->
   forall b' : bool,
     (get_path py_repr [] (set_attr "directedges" (VBool b') w)).2 =
     (get_path py_repr [] w).2).
Proof.
  intros Hr Ht Hb. split.
  - unfold direct_segment, direct_spec. rewrite (getattr_Some _ _ _ Hb).
    cbn [mbind res_bind bool_and]. rewrite cut_spec_empty.
    by destruct ((Float64.nonzero r || Float64.nonzero t) && b).
  - intros Hr0 Ht0 b'. apply get_path_ignores_at.
    + compute_done.
    + apply cut_segment_frame. compute_done.
    + intros cut Hcut. rewrite (cut_segment_floats w r t Hr Ht) in Hcut.
      injection Hcut as <-.
      assert (Hempty : cut_spec r t = "") by (unfold cut_spec; by rewrite Hr0, Ht0).
      rewrite Hempty.
      set (w1 := (derive_fdir py_repr w).1).
      assert (Hb1 : self w1 !! "directedges" = Some (VBool b))
        by (unfold w1; by rewrite lookup_after_fdir).
      assert (Hd : direct_segment "" (set_attr "directedges" (VBool b') w1) =
                   direct_segment "" w1).
      { unfold direct_segment. rewrite (getattr_Some _ _ _ Hb1).
        unfold getattr, set_attr. cbn [self]. by rewrite lookup_insert_eq. }
      unfold render. rewrite Hd.
      unfold comp_segment, z_segment, sculpt_segment, fname_segment, join_fdir.
      repeat (rewrite (getattr_set_attr_ne "directedges") by done).
      reflexivity.
Qed.

Lemma direct_segment_needs_cut_witness :
  self (new []) !! "rpcut" = Some (VFloat f0_0) /\
  self (new []) !! "thetacut" = Some (VFloat f0_0) /\
  self (new []) !! "directedges" = Some (VBool true) /\
  forall py_repr : list obj -> value -> string,
    direct_segment (cut_spec f0_0 f0_0) (new []) = Return (direct_spec f0_0 f0_0 true) /\
    (Float64.nonzero f0_0 = false -> Float64.nonzero f0_0 = false ->
     forall b' : bool,
       (get_path py_repr [] (set_attr "directedges" (VBool b') (new []))).2 =
       (get_path py_repr [] (new [])).2).
Proof.
  split; [reflexivity | split; [reflexivity | split; [reflexivity |]]].
  intros py_repr.
  exact (direct_segment_needs_cut py_repr (new []) f0_0 f0_0 true eq_refl eq_refl eq_refl).
Defined.

Lemma get_path_same_comp (py_repr : list obj -> value -> string) (w : world)
    (v : value) (comp : option string) :
  comp_segment (derive_fdir py_repr w).1 = Return comp ->
  comp_segment (set_attr "completeness" v (derive_fdir py_repr w).1) = Return comp ->
  (get_path py_repr [] (set_attr "completeness" v w)).2 = (get_path py_repr [] w).2.
Proof.
  intros H1 H2. apply get_path_ignores_at.
  - compute_done.
  - apply cut_segment_frame. compute_done.
  - intros cut _. unfold render. rewrite H1, H2.
    unfold z_segment, direct_segment, sculpt_segment, fname_segment, join_fdir.
    repeat (rewrite (getattr_set_attr_ne "completeness") by done).
    reflexivity.
Qed.

(** X6: for a generation string that contains 'cubic' and neither 'first'
    nor 'second', the boolean completeness does not show in the result of
    [get_path]: a complete and a fiber-assigned record get the same path. *)
Theorem cubic_ignores_completeness
    (py_repr : list obj -> value -> string) (w : world) (g : string) (b b' : bool) :
  self w !! "mockgen" = Some (VStr g) ->
  contains_str "first" g = false ->
  contains_str "second" g = false ->
  contains_str "cubic" g = true ->
  (get_path py_repr [] (set_attr "completeness" (VBool b) w)).2 =
  (get_path py_repr [] (set_attr "completeness" (VBool b') w)).2.
Proof.
  intros Hg H1 H2 H3.
  rewrite <- (set_attr_set_attr "completeness" (VBool b) (VBool b') w).
  apply get_path_same_comp with (comp := Some "").
  - rewrite (comp_segment_bool _ b' g), H1, H2, H3; [reflexivity | |].
    + rewrite lookup_after_fdir by done. unfold set_attr. cbn [self].
      apply lookup_insert_eq.
    + rewrite lookup_after_fdir by done. by rewrite lookup_set_attr_ne.
  - rewrite (comp_segment_bool _ b g), H1, H2, H3; [reflexivity | |].
    + unfold set_attr at 1. cbn [self]. apply lookup_insert_eq.
    + rewrite lookup_set_attr_ne by done. rewrite lookup_after_fdir by done.
      by rewrite lookup_set_attr_ne.
Qed.

Lemma cubic_ignores_completeness_witness :
  self cubic_record !! "mockgen" = Some (VStr "cubic") /\
  contains_str "first" "cubic" = false /\
  contains_str "second" "cubic" = false /\
  contains_str "cubic" "cubic" = true /\
  forall py_repr : list obj -> value -> string,
    (get_path py_repr [] (set_attr "completeness" (VBool true) cubic_record)).2 =
    (get_path py_repr [] (set_attr "completeness" (VBool false) cubic_record)).2.
Proof.
  split; [reflexivity | split; [reflexivity | split; [reflexivity | split; [reflexivity |]]]].
  intros py_repr.
  exact (cubic_ignores_completeness py_repr cubic_record "cubic" true false
           eq_refl eq_refl eq_refl eq_refl).
Defined.

(** ** The other branches of [set_default_config] *)

Lemma set_default_config_after_update (py_repr : list obj -> value -> string)
    (kwargs : list (string * value)) (w w1 : world) :
  update kwargs w = (w1, Return tt) ->
  set_default_config py_repr kwargs w = set_default_config py_repr [] w1.
Proof.
  intros Hup. unfold set_default_config. cbn [update].
  rewrite !M_bind_eq, Hup. reflexivity.
Qed.

(** X7: when, once the keywords are merged, the generation is none of
    'first', 'second' and 'cubic', [set_default_config] merges no preset: it
    stops on the unbound local [default_options], the record being as the
    keywords left it. *)
Theorem set_default_config_unknown_generation
    (py_repr : list obj -> value -> string) (kwargs : list (string * value))
    (w w1 : world) (mockgen : value) :
  update kwargs w = (w1, Return tt) ->
  self w1 !! "mockgen" = Some mockgen ->
  eq_str mockgen "first" = false ->
  eq_str mockgen "second" = false ->
  eq_str mockgen "cubic" = false ->
  set_default_config py_repr kwargs w = (w1, Raise (UnboundLocalError "default_options")).
Proof.
  intros Hup Hm H1 H2 H3.
  rewrite (set_default_config_after_update py_repr kwargs w w1 Hup).
  unfold set_default_config. cbn [update]. unfold_methods.
  repeat first [ rewrite Hm | rewrite H1 | rewrite H2 | rewrite H3 ].
  reflexivity.
Qed.

Lemma set_default_config_unknown_generation_witness :
  let kwargs := [("mockgen", VStr "third")] in
  update kwargs (new []) = (third_generation, Return tt) /\
  self third_generation !! "mockgen" = Some (VStr "third") /\
  eq_str (VStr "third") "first" = false /\
  eq_str (VStr "third") "second" = false /\
  eq_str (VStr "third") "cubic" = false /\
  forall py_repr : list obj -> value -> string,
    set_default_config py_repr kwargs (new []) =
      (third_generation, Raise (UnboundLocalError "default_options")).
Proof.
  assert (Hup : update [("mockgen", VStr "third")] (new []) = (third_generation, Return tt))
    by (vm_compute; reflexivity).
  split; [exact Hup | split; [reflexivity | split; [reflexivity |
    split; [reflexivity | split; [reflexivity |]]]]].
  intros py_repr.
  exact (set_default_config_unknown_generation py_repr _ (new []) third_generation
           (VStr "third") Hup eq_refl eq_refl eq_refl eq_refl).
Defined.

(** X8: with generation 'first', a tracer that starts with 'ELG' and a
    string file type, [set_default_config] returns after merging the preset
    of the generation: tracer 'ELG', redshift range (0.8, 1.6), the directory
    [xi] when the file type contains 'corr', and otherwise the directory
    [pk] with direct edges off. *)
Theorem set_default_config_first
    (py_repr : list obj -> value -> string) (kwargs : list (string * value))
    (w w1 : world) (t f : string) :
  update kwargs w = (w1, Return tt) ->
  self w1 !! "mockgen" = Some (VStr "first") ->
  self w1 !! "tracer" = Some (VStr t) ->
  String.eqb (String.substring 0 3 t) "ELG" = true ->
  self w1 !! "ftype" = Some (VStr f) ->
  let r := set_default_config py_repr kwargs w in
  r = update (first_preset (contains_str "corr" f)) w1 /\ r.2 = Return tt.
Proof.
  intros Hup Hm Ht Hp Hf r. subst r.
  rewrite (set_default_config_after_update py_repr kwargs w w1 Hup).
  unfold set_default_config. cbn [update]. unfold_methods.
  repeat first [ rewrite Hm | rewrite Ht | rewrite Hp | rewrite Hf
               | progress cbn [eq_str prefix3_eq contains String.eqb Ascii.eqb Bool.eqb] ].
  destruct (contains_str "corr" f);
    repeat first [ rewrite Hm
                 | progress cbn [default_options subdir dict_set eq_str first_preset
                                 String.eqb Ascii.eqb Bool.eqb] ].
  all: split; [reflexivity | vm_compute; reflexivity].
Qed.

Lemma set_default_config_first_witness :
  update first_corr_kwargs (new []) = (first_corr_record, Return tt) /\
  self first_corr_record !! "mockgen" = Some (VStr "first") /\
  self first_corr_record !! "tracer" = Some (VStr "ELG_HIP") /\
  String.eqb (String.substring 0 3 "ELG_HIP") "ELG" = true /\
  self first_corr_record !! "ftype" = Some (VStr "corr_func") /\
  forall py_repr : list obj -> value -> string,
    let r := set_default_config py_repr first_corr_kwargs (new []) in
    r = update (first_preset (contains_str "corr" "corr_func")) first_corr_record /\
    r.2 = Return tt.
Proof.
  assert (Hup : update first_corr_kwargs (new []) = (first_corr_record, Return tt))
    by (vm_compute; reflexivity).
  split; [exact Hup | split; [reflexivity | split; [reflexivity |
    split; [reflexivity | split; [reflexivity |]]]]].
  intros py_repr.
  exact (set_default_config_first py_repr first_corr_kwargs (new []) first_corr_record
           "ELG_HIP" "corr_func" Hup eq_refl eq_refl eq_refl eq_refl).
Defined.

Lemma update_second_sculpt_returns (w : world) :
  (update (second_preset false (Some (sculpt_defaults_ref w)))
          (with_sculpt_defaults w)).2 = Return tt.
Proof.
  destruct (update_known_returns
              (second_preset false (Some (sculpt_defaults_ref w)))
              (with_sculpt_defaults w)) as (w' & Hup & _).
  - repeat constructor.
  - repeat constructor. cbn. rewrite length_app. cbn. lia.
  - by rewrite Hup.
Qed.

Lemma set_default_config_second_eq
    (py_repr : list obj -> value -> string) (kwargs : list (string * value))
    (w w1 : world) (t f : string) :
  update kwargs w = (w1, Return tt) ->
  self w1 !! "mockgen" = Some (VStr "second") ->
  self w1 !! "tracer" = Some (VStr t) ->
  String.eqb (String.substring 0 3 t) "ELG" = true ->
  self w1 !! "ftype" = Some (VStr f) ->
  let r := set_default_config py_repr kwargs w in
  r.2 = Return tt /\
  r = if contains_str "corr" f then update (second_preset true None) w1
      else if contains_str "sculpt" f then
        update (second_preset false (Some (sculpt_defaults_ref w1)))
               (with_sculpt_defaults w1)
      else update (second_preset false None) w1.
Proof.
  intros Hup Hm Ht Hp Hf r. subst r.
  rewrite (set_default_config_after_update py_repr kwargs w w1 Hup).
  unfold set_default_config. cbn [update]. unfold_methods.
  repeat first [ rewrite Hm | rewrite Ht | rewrite Hp | rewrite Hf
               | progress cbn [eq_str prefix3_eq contains String.eqb Ascii.eqb Bool.eqb] ].
  destruct (contains_str "corr" f);
    repeat first [ rewrite Hm | rewrite Hf
                 | progress cbn [default_options subdir dict_set eq_str contains
                                 second_preset String.eqb Ascii.eqb Bool.eqb] ];
    [| destruct (contains_str "sculpt" f) ];
    repeat first [ rewrite Hm
                 | progress cbn [default_options subdir dict_set eq_str second_preset
                                 alloc heap self fst snd
                                 String.eqb Ascii.eqb Bool.eqb] ].
  - split; [vm_compute; reflexivity | reflexivity].
  - rewrite <- (assoc_L (++)). cbn [app]. rewrite length_app, Nat.add_1_r.
    split; [apply update_second_sculpt_returns | reflexivity].
  - split; [vm_compute; reflexivity | reflexivity].
Qed.

(** X9: with generation 'second', a tracer that starts with 'ELG' and a
    string file type, [set_default_config] returns after merging the preset
    of the generation: tracer 'ELG_LOP', redshift range (0.8, 1.6), the
    directory [xi] when the file type contains 'corr', and otherwise the
    directory [pk], cell size 4 and direct edges on; the sculpting
    attributes are built and merged only when the file type contains
    'sculpt' and does not contain 'corr'. *)
Theorem set_default_config_second
    (py_repr : list obj -> value -> string) (kwargs : list (string * value))
    (w w1 : world) (t f : string) :
  update kwargs w = (w1, Return tt) ->
  self w1 !! "mockgen" = Some (VStr "second") ->
  self w1 !! "tracer" = Some (VStr t) ->
  String.eqb (String.substring 0 3 t) "ELG" = true ->
  self w1 !! "ftype" = Some (VStr f) ->
  let r := set_default_config py_repr kwargs w in
  r.2 = Return tt /\
  r = if contains_str "corr" f then update (second_preset true None) w1
      else if contains_str "sculpt" f then
        update (second_preset false (Some (sculpt_defaults_ref w1)))
               (with_sculpt_defaults w1)
      else update (second_preset false None) w1.
Proof.
  intros Hup Hm Ht Hp Hf.
  exact (set_default_config_second_eq py_repr kwargs w w1 t f Hup Hm Ht Hp Hf).
Qed.

Lemma set_default_config_second_witness :
  update sculpt_kwargs (new []) = (sculpt_record, Return tt) /\
  self sculpt_record !! "mockgen" = Some (VStr "second") /\
  self sculpt_record !! "tracer" = Some (VStr "ELG") /\
  String.eqb (String.substring 0 3 "ELG") "ELG" = true /\
  self sculpt_record !! "ftype" = Some (VStr "wmatrix_smooth_sculpt") /\
  forall py_repr : list obj -> value -> string,
    let r := set_default_config py_repr sculpt_kwargs (new []) in
    r.2 = Return tt /\
    r = update (second_preset false (Some (sculpt_defaults_ref sculpt_record)))
               (with_sculpt_defaults sculpt_record).
Proof.
  assert (Hup : update sculpt_kwargs (new []) = (sculpt_record, Return tt))
    by (vm_compute; reflexivity).
  split; [exact Hup | split; [reflexivity | split; [reflexivity |
    split; [reflexivity | split; [reflexivity |]]]]].
  intros py_repr.
  exact (set_default_config_second py_repr sculpt_kwargs (new []) sculpt_record
           "ELG" "wmatrix_smooth_sculpt" Hup eq_refl eq_refl eq_refl eq_refl).
Defined.

(** ** Keywords given to [get_path] *)

Lemma update_lookup_as_is (kwargs : list (string * value)) :
  forall (w w' : world) (k : string) (v : value),
    update kwargs w = (w', Return tt) ->
    NoDup kwargs.*1 ->
    (k, v) ∈ kwargs ->
    copied_as_is v = true ->
    self w' !! k = Some v.
Proof.
  induction kwargs as [| [k0 v0] rest IH]; intros w w' k v Hup Hd Hin Hv.
  - by apply elem_of_nil in Hin.
  - apply NoDup_cons in Hd as [Hnk Hd]. cbn [update] in Hup.
    destruct (in_defaults k0); [| discriminate].
    cbv [mbind M_bind] in Hup.
    destruct (copy_copy v0 w) as [w1 [c | e]] eqn:Hc; [| discriminate].
    cbv [setattr] in Hup.
    apply elem_of_cons in Hin as [Heq | Hin].
    + injection Heq as -> ->.
      assert (Hcv : c = v0 /\ w1 = w).
      { destruct v0; try discriminate; by injection Hc as <- <-. }
      destruct Hcv as [-> ->].
      pose proof (update_untouched rest (World (heap w) (<[k0 := v0]> (self w))) k0 Hnk)
        as Hun.
      rewrite Hup in Hun. cbn [fst self] in Hun. rewrite Hun. apply lookup_insert_eq.
    + exact (IH _ w' k v Hup Hd Hin Hv).
Qed.

Lemma get_path_after_update (py_repr : list obj -> value -> string)
    (kwargs : list (string * value)) (w w1 : world) :
  update kwargs w = (w1, Return tt) ->
  get_path py_repr kwargs w = get_path py_repr [] w1.
Proof.
  intros Hup. unfold get_path. cbn [update].
  rewrite !M_bind_eq, Hup. reflexivity.
Qed.

Lemma get_path_nil_lookup (py_repr : list obj -> value -> string) (w : world)
    (name : string) :
  name <> "fdir" ->
  self (get_path py_repr [] w).1 !! name = self w !! name.
Proof.
  intros Hne. destruct (get_path_world py_repr w) as [-> | ->]; [| reflexivity].
  by apply lookup_after_fdir.
Qed.

(** X10: keywords given to [get_path] are merged into the record and stay
    there: for a mapping of distinct known names, an attribute other than
    [fdir] that was given an immutable value holds that value when the call
    is over, whether it returned a path or raised. *)
Theorem get_path_keeps_keywords
    (py_repr : list obj -> value -> string) (kwargs : list (string * value))
    (w : world) (k : string) (v : value) :
  Forall (fun kv => in_defaults kv.1 = true) kwargs ->
  Forall (fun kv => valid_value (heap w) kv.2) kwargs ->
  NoDup kwargs.*1 ->
  (k, v) ∈ kwargs ->
  copied_as_is v = true ->
  k <> "fdir" ->
  self (get_path py_repr kwargs w).1 !! k = Some v.
Proof.
  intros Hk Hv Hd Hin Has Hne.
  destruct (update_known_returns kwargs w Hk Hv) as (w1 & Hup & _).
  rewrite (get_path_after_update py_repr kwargs w w1 Hup).
  rewrite get_path_nil_lookup by exact Hne.
  exact (update_lookup_as_is kwargs w w1 k v Hup Hd Hin Has).
Qed.

Lemma get_path_keeps_keywords_witness :
  let kwargs := [("rpcut", VFloat f2_5); ("mockgen", VStr "third")] in
  Forall (fun kv => in_defaults kv.1 = true) kwargs /\
  Forall (fun kv => valid_value (heap (new [])) kv.2) kwargs /\
  NoDup kwargs.*1 /\
  ("rpcut", VFloat f2_5) ∈ kwargs /\
  copied_as_is (VFloat f2_5) = true /\
  "rpcut" <> "fdir" /\
  forall py_repr : list obj -> value -> string,
    self (get_path py_repr kwargs (new [])).1 !! "rpcut" = Some (VFloat f2_5).
Proof.
  assert (Hk : Forall (fun kv : string * value => in_defaults kv.1 = true)
                 [("rpcut", VFloat f2_5); ("mockgen", VStr "third")])
    by repeat constructor.
  assert (Hv : Forall (fun kv : string * value => valid_value (heap (new [])) kv.2)
                 [("rpcut", VFloat f2_5); ("mockgen", VStr "third")])
    by repeat constructor.
  assert (Hd : NoDup [("rpcut", VFloat f2_5); ("mockgen", VStr "third")].*1)
    by compute_done.
  assert (Hin : ("rpcut", VFloat f2_5) ∈ [("rpcut", VFloat f2_5); ("mockgen", VStr "third")])
    by apply list_elem_of_here.
  assert (Hne : "rpcut" <> "fdir") by discriminate.
  split; [exact Hk | split; [exact Hv | split; [exact Hd | split; [exact Hin |
    split; [reflexivity | split; [exact Hne |]]]]]].
  intros py_repr.
  exact (get_path_keeps_keywords py_repr _ (new []) "rpcut" (VFloat f2_5)
           Hk Hv Hd Hin eq_refl Hne).
Defined.

(** ** The shape of a returned path *)

Lemma startswith_slash_app (f rest : string) :
  startswith "/" (f ++ "_" ++ rest) = startswith "/" f.
Proof.
  destruct f as [| c f]; [reflexivity |].
  change (String c f ++ "_" ++ rest) with (String c (f ++ "_" ++ rest)).
  unfold startswith. cbn [String.prefix].
  match goal with
  | |- context [Ascii.ascii_dec ?a c] => destruct (Ascii.ascii_dec a c)
  end; [| reflexivity].
  generalize (f ++ "_" ++ rest). intros s. by destruct f, s.
Qed.

(** The file name starts with the file type and an underscore, and ends
    with the extension. *)
Lemma fname_segment_shape (py_repr : list obj -> value -> string)
    (comp : option string) (z cut direct sculpt fname f : string) (w : world) :
  fname_segment py_repr comp z cut direct sculpt w = Return fname ->
  self w !! "ftype" = Some (VStr f) ->
  exists stem : string, fname = f ++ "_" ++ stem ++ ".npy".
Proof.
  unfold fname_segment. intros H Hf. rewrite (getattr_Some _ _ _ Hf) in H.
  cbv [mbind res_bind mret res_ret] in H.
  destruct (getattr w "realization") as [realization | e]; [| discriminate].
  destruct (getattr w "tracer") as [tracer | e]; [| discriminate].
  destruct comp as [comp |]; [| discriminate].
  destruct (getattr w "region") as [region | e]; [| discriminate].
  destruct (getattr w "weighting") as [weighting | e]; [| discriminate].
  destruct (getattr w "nran") as [nran | e]; [| discriminate].
  destruct (getattr w "los") as [los | e]; [| discriminate].
  destruct (getattr w "cellsize") as [cellsize | e]; [| discriminate].
  destruct (getattr w "nmesh") as [nmesh | e]; [| discriminate].
  destruct (getattr w "boxsize") as [boxsize | e]; [| discriminate].
  injection H as <-.
  set (tail := comp ++ opt_attr py_repr (heap w) "" region ++ z ++
          (if is_none weighting then "" else str py_repr (heap w) weighting) ++
          opt_attr py_repr (heap w) "nran" nran ++ opt_attr py_repr (heap w) "los" los ++
          opt_attr py_repr (heap w) "cellsize" cellsize ++
          opt_attr py_repr (heap w) "nmesh" nmesh ++
          opt_attr py_repr (heap w) "boxsize" boxsize ++ cut ++ direct ++ sculpt).
  unfold opt_attr at 1. cbn [str].
  destruct (is_none realization).
  - exists (str py_repr (heap w) tracer ++ tail).
    subst tail. cbn [String.append]. rewrite !string_app_assoc. reflexivity.
  - exists ("mock" ++ str py_repr (heap w) realization ++ "_" ++
            str py_repr (heap w) tracer ++ tail).
    subst tail. cbn [String.append]. rewrite !string_app_assoc. reflexivity.
Qed.

Lemma get_path_update_returned (py_repr : list obj -> value -> string)
    (kwargs : list (string * value)) (w : world) (p : string) :
  (get_path py_repr kwargs w).2 = Return p ->
  exists w1 : world, update kwargs w = (w1, Return tt).
Proof.
  unfold get_path. rewrite M_bind_eq.
  destruct (update kwargs w) as [w1 [[] | e]]; [by exists w1 | discriminate].
Qed.

(** X11: a path [get_path] returns is the directory held by [fdir] joined
    with a file name that starts with the file type followed by an
    underscore and ends with [.npy]; when the file type starts with a slash
    the join discards the directory, and the path is the file name alone. *)
Theorem get_path_shape
    (py_repr : list obj -> value -> string) (kwargs : list (string * value))
    (w : world) (p f : string) :
  (get_path py_repr kwargs w).2 = Return p ->
  self (get_path py_repr kwargs w).1 !! "ftype" = Some (VStr f) ->
  exists d stem : string,
    self (get_path py_repr kwargs w).1 !! "fdir" = Some (VStr d) /\
    p = path_join d (f ++ "_" ++ stem ++ ".npy") /\
    (startswith "/" f = true -> p = f ++ "_" ++ stem ++ ".npy").
Proof.
  intros Hp Hf.
  destruct (get_path_update_returned py_repr kwargs w p Hp) as [w1 Hup].
  rewrite (get_path_after_update py_repr kwargs w w1 Hup) in *.
  rewrite get_path_nil_lookup in Hf by done.
  destruct (get_path_Return py_repr w1 p Hp)
    as (cut & comp & z & direct & sculpt & fname & d &
        _ & _ & _ & _ & _ & Hfname & Hd & ->).
  destruct (fname_segment_shape _ _ _ _ _ _ _ _ _ Hfname Hf) as [stem ->].
  exists d, stem. split; [exact Hd | split; [reflexivity |]].
  intros Hslash. unfold path_join. by rewrite startswith_slash_app, Hslash.
Qed.

Lemma get_path_shape_witness :
  startswith "/" "/tmp/power" = true /\
  forall py_repr : list obj -> value -> string,
    (get_path py_repr absolute_kwargs (new [])).2 =
      Return "/tmp/power_mock0_ELG_complete_GCcomb.npy" /\
    self (get_path py_repr absolute_kwargs (new [])).1 !! "ftype" =
      Some (VStr "/tmp/power") /\
    exists d stem : string,
      self (get_path py_repr absolute_kwargs (new [])).1 !! "fdir" = Some (VStr d) /\
      "/tmp/power_mock0_ELG_complete_GCcomb.npy" =
        path_join d ("/tmp/power" ++ "_" ++ stem ++ ".npy") /\
      (startswith "/" "/tmp/power" = true ->
       "/tmp/power_mock0_ELG_complete_GCcomb.npy" = "/tmp/power" ++ "_" ++ stem ++ ".npy").
Proof.
  split; [reflexivity |].
  intros py_repr.
  assert (Hp : (get_path py_repr absolute_kwargs (new [])).2 =
               Return "/tmp/power_mock0_ELG_complete_GCcomb.npy")
    by (vm_compute; reflexivity).
  assert (Hf : self (get_path py_repr absolute_kwargs (new [])).1 !! "ftype" =
               Some (VStr "/tmp/power"))
    by (vm_compute; reflexivity).
  split; [exact Hp | split; [exact Hf |]].
  exact (get_path_shape py_repr absolute_kwargs (new [])
           "/tmp/power_mock0_ELG_complete_GCcomb.npy" "/tmp/power" Hp Hf).
Defined.

(** ** The derived directory *)

Lemma string_length_app (a b : string) :
  String.length (a ++ b) = (String.length a + String.length b)%nat.
Proof.
  induction a as [| c a IH]; [reflexivity |].
  change (S (String.length (a ++ b)) = S (String.length a + String.length b)).
  by rewrite IH.
Qed.

Lemma substring_app_r (a b : string) (m k : nat) :
  String.substring (String.length a + m) k (a ++ b) = String.substring m k b.
Proof. induction a as [| c a IH]; [reflexivity |]. exact IH. Qed.

(** Whether a string ends with [p] is decided by any of its suffixes that
    is at least as long as [p]. *)
Lemma endswith_app (p a b : string) :
  (String.length p <= String.length b)%nat ->
  endswith p (a ++ b) = endswith p b.
Proof.
  intros Hle. unfold endswith. rewrite string_length_app.
  replace (String.length a + String.length b - String.length p)%nat
    with (String.length a + (String.length b - String.length p))%nat by lia.
  rewrite substring_app_r.
  destruct (Nat.leb_spec (String.length p) (String.length b)) as [_ | Hlt]; [| lia].
  destruct (Nat.leb_spec (String.length p) (String.length a + String.length b))
    as [_ | Hlt]; [reflexivity | lia].
Qed.

Lemma derived_base_join (py_repr : list obj -> value -> string) (h : list obj)
    (g sub : string) :
  startswith "/" sub = false ->
  path_join (derived_base py_repr h (VStr g)) sub =
  mocks_root ++ g ++ "GenMocksY1/" ++ sub.
Proof.
  intros Hsub. unfold path_join, derived_base. cbn [str]. rewrite Hsub.
  replace (mocks_root ++ g ++ "GenMocksY1") with ((mocks_root ++ g) ++ "GenMocksY1")
    by apply string_app_assoc.
  rewrite endswith_app by (cbn; lia).
  change (endswith "/" "GenMocksY1") with false.
  replace (String.eqb ((mocks_root ++ g) ++ "GenMocksY1") "") with false.
  - cbn [orb]. rewrite !string_app_assoc. reflexivity.
  - symmetry. apply String.eqb_neq. unfold mocks_root. discriminate.
Qed.

(** X12: when [fdir] is the empty string, the generation a string [g] and
    the file type a string, a call of [get_path] that gets past the cut
    leaves in [fdir] the directory [/global/cfs/cdirs/desi/users/mpinon/],
    [g], [GenMocksY1/], then [xi] when the file type contains 'corr' and
    [pk] otherwise. *)
Theorem get_path_derives_fdir
    (py_repr : list obj -> value -> string) (w : world) (g f cut : string) :
  self w !! "fdir" = Some (VStr "") ->
  self w !! "mockgen" = Some (VStr g) ->
  self w !! "ftype" = Some (VStr f) ->
  cut_segment w = Return cut ->
  self (get_path py_repr [] w).1 !! "fdir" =
    Some (VStr (mocks_root ++ g ++ "GenMocksY1/" ++
                (if contains_str "corr" f then "xi" else "pk"))).
Proof.
  intros Hfdir Hg Hf Hcut.
  rewrite get_path_nil, Hcut, derive_fdir_eq, Hfdir, Hg, Hf.
  cbn [eq_str String.eqb contains]. cbn zeta. cbn [fst]. unfold derived_fdir.
  rewrite derived_base_join by (by destruct (contains_str "corr" f)).
  unfold set_attr. cbn [self]. apply lookup_insert_eq.
Qed.

Lemma get_path_derives_fdir_witness :
  self third_generation !! "fdir" = Some (VStr "") /\
  self third_generation !! "mockgen" = Some (VStr "third") /\
  self third_generation !! "ftype" = Some (VStr "power") /\
  cut_segment third_generation = Return "" /\
  forall py_repr : list obj -> value -> string,
    self (get_path py_repr [] third_generation).1 !! "fdir" =
      Some (VStr (mocks_root ++ "third" ++ "GenMocksY1/" ++
                  (if contains_str "corr" "power" then "xi" else "pk"))).
Proof.
  split; [reflexivity | split; [reflexivity | split; [reflexivity | split; [reflexivity |]]]].
  intros py_repr.
  exact (get_path_derives_fdir py_repr third_generation "third" "power" ""
           eq_refl eq_refl eq_refl eq_refl).
Defined.

(** ** What a call of [set_default_config] that returns has done *)

Lemma first_block_returned (py_repr : list obj -> value -> string)
    (lv lv' : locals) (w w' : world) :
  first_block py_repr lv w = (w', Return lv') ->
  w' = w /\ exists corr : bool, default_options lv' = Some (first_preset corr).
Proof.
  unfold first_block. unfold_methods. intros H.
  destruct (self w !! "tracer") as [tracer |]; [| discriminate].
  destruct (prefix3_eq (heap w) tracer "ELG") as [[|] | e]; try discriminate.
  destruct (self w !! "ftype") as [ftype |]; [| discriminate].
  destruct (contains (heap w) "corr" ftype) as [[|] | e]; try discriminate.
  - injection H as <- <-. split; [reflexivity | by exists true].
  - injection H as <- <-. split; [reflexivity | by exists false].
Qed.

Ltac block_simpl H :=
  cbn [fst snd default_options subdir dict_set alloc heap self
       String.eqb Ascii.eqb Bool.eqb] in H.

Lemma second_block_returned (py_repr : list obj -> value -> string)
    (lv lv' : locals) (w w' : world) :
  second_block py_repr lv w = (w', Return lv') ->
  (w' = w /\ exists corr : bool, default_options lv' = Some (second_preset corr None)) \/
  (w' = with_sculpt_defaults w /\
   default_options lv' = Some (second_preset false (Some (sculpt_defaults_ref w)))).
Proof.
  unfold second_block. unfold_methods. intros H.
  destruct (self w !! "tracer") as [tracer |]; [| discriminate].
  destruct (prefix3_eq (heap w) tracer "ELG") as [[|] | e]; try discriminate.
  destruct (self w !! "ftype") as [ftype |] eqn:Hf; [| discriminate].
  destruct (contains (heap w) "corr" ftype) as [[|] | e]; try discriminate.
  - injection H as <- <-. left. split; [reflexivity | by exists true].
  - block_simpl H. rewrite Hf in H.
    destruct (contains (heap w) "sculpt" ftype) as [[|] | e]; block_simpl H;
      try discriminate.
    + injection H as <- <-. right.
      unfold with_sculpt_defaults, sculpt_defaults_ref.
      rewrite <- (assoc_L (++)), length_app, Nat.add_1_r. by split.
    + injection H as <- <-. left. split; [reflexivity | by exists false].
Qed.

Lemma cubic_block_returned (py_repr : list obj -> value -> string)
    (lv lv' : locals) (w w' : world) :
  default_options lv = None ->
  cubic_block py_repr lv w = (w', Return lv') ->
  w' = w /\
  (default_options lv' = Some cubic_preset_z1_1 \/
   exists z : value,
     eq_float z f0_95 = true /\ default_options lv' = Some (cubic_preset_z0_95 z)).
Proof.
  unfold cubic_block. unfold_methods. intros Hlv H.
  destruct (self w !! "tracer") as [tracer |]; [| discriminate].
  destruct (prefix3_eq (heap w) tracer "ELG") as [[|] | e]; try discriminate.
  destruct (self w !! "z") as [z |] eqn:Hz; [| discriminate].
  block_simpl H. rewrite ?Hz in H. block_simpl H.
  destruct (eq_float z f0_95) eqn:H95; block_simpl H; rewrite ?Hz in H; block_simpl H.
  - injection H as <- <-. split; [reflexivity | right]. by exists z.
  - destruct (eq_float z f1_1 || is_none z); block_simpl H;
      [| rewrite Hlv in H; discriminate].
    injection H as <- <-. split; [reflexivity | by left].
Qed.

Lemma when_mockgen_eq (name : string) (block : locals -> M locals)
    (lv : locals) (w : world) (v : value) :
  self w !! "mockgen" = Some v ->
  when_mockgen name block lv w =
  if eq_str v name then block lv w else (w, Return lv).
Proof.
  intros Hm. unfold when_mockgen. rewrite read_bind, (getattr_Some _ _ _ Hm).
  by destruct (eq_str v name).
Qed.

Lemma eq_str_true (v : value) (s : string) : eq_str v s = true -> v = VStr s.
Proof.
  destruct v; try discriminate. cbn. intros H. apply String.eqb_eq in H. by subst.
Qed.

(** What the merge of a preset that has a tracer, a directory and a
    redshift range leaves in the record. *)
Lemma preset_merged (opts : list (string * value)) (w w' : world)
    (g label d : string) (zrange : value) :
  update opts w = (w', Return tt) ->
  NoDup opts.*1 ->
  "mockgen" ∉ opts.*1 ->
  self w !! "mockgen" = Some (VStr g) ->
  ("tracer", VStr label) ∈ opts ->
  ("fdir", VStr d) ∈ opts ->
  ("zrange", zrange) ∈ opts ->
  copied_as_is zrange = true ->
  self w' !! "mockgen" = Some (VStr g) /\
  self w' !! "tracer" = Some (VStr label) /\
  self w' !! "fdir" = Some (VStr d) /\
  self w' !! "zrange" = Some zrange.
Proof.
  intros Hup Hd Hm Hg Ht Hf Hz Hzc.
  pose proof (update_untouched opts w "mockgen" Hm) as Hun.
  rewrite Hup in Hun. cbn [fst] in Hun.
  split; [by rewrite Hun | split; [| split]];
    by eapply (update_lookup_as_is opts w w').
Qed.

Ltac preset_facts :=
  match goal with
  | H : update _ _ = (_, Return tt) |- _ =>
      eapply (preset_merged _ _ _ _ _ _ _ H);
      [ compute_done | compute_done | eassumption
      | repeat constructor | repeat constructor | repeat constructor | reflexivity ]
  end.

(** X13: when [set_default_config] returns, the generation of the record
    is 'first', 'second' or 'cubic'; its tracer is the label 'ELG' or
    'ELG_LOP', whatever tracer the record or the keywords had; its [fdir] is
    a directory that is not the empty string; and its redshift range is
    (0.8, 1.6), or absent for the generation 'cubic'. *)
Theorem set_default_config_returned
    (py_repr : list obj -> value -> string) (kwargs : list (string * value))
    (w w' : world) :
  set_default_config py_repr kwargs w = (w', Return tt) ->
  exists g label d : string,
    self w' !! "mockgen" = Some (VStr g) /\
    g ∈ ["first"; "second"; "cubic"] /\
    self w' !! "tracer" = Some (VStr label) /\
    label ∈ ["ELG"; "ELG_LOP"] /\
    self w' !! "fdir" = Some (VStr d) /\
    eq_str (VStr d) "" = false /\
    self w' !! "zrange" = Some (if String.eqb g "cubic" then VNone else zrange_ELG).
Proof.
  unfold set_default_config. rewrite M_bind_eq.
  destruct (update kwargs w) as [w1 [[] | e]]; [| discriminate].
  rewrite M_bind_eq.
  destruct (self w1 !! "mockgen") as [v |] eqn:Hm;
    [| unfold when_mockgen; rewrite read_bind; unfold getattr; by rewrite Hm].
  rewrite (when_mockgen_eq "first" _ _ w1 v Hm).
  destruct (eq_str v "first") eqn:E1.
  - apply eq_str_true in E1. subst v.
    destruct (first_block py_repr _ w1) as [w2 [lv1 | e]] eqn:Hb; [| discriminate].
    destruct (first_block_returned py_repr _ lv1 w1 w2 Hb) as [-> [corr Hopts]].
    rewrite M_bind_eq, (when_mockgen_eq "second" _ _ w1 _ Hm).
    cbn [eq_str String.eqb Ascii.eqb Bool.eqb].
    rewrite M_bind_eq, (when_mockgen_eq "cubic" _ _ w1 _ Hm).
    cbn [eq_str String.eqb Ascii.eqb Bool.eqb]. rewrite read_bind, Hopts.
    cbn [load_local]. intros Hup.
    destruct corr; eexists "first", "ELG", _;
      (split; [| split; [compute_done | split; [| split; [compute_done |
         split; [| split; [| cbn [String.eqb Ascii.eqb Bool.eqb]]]]]]]);
      try preset_facts; reflexivity.
  - rewrite M_bind_eq, (when_mockgen_eq "second" _ _ w1 v Hm).
    destruct (eq_str v "second") eqn:E2.
    + apply eq_str_true in E2. subst v.
      destruct (second_block py_repr _ w1) as [w2 [lv1 | e]] eqn:Hb; [| discriminate].
      assert (Hm2 : self w2 !! "mockgen" = Some (VStr "second")).
      { destruct (second_block_returned py_repr _ lv1 w1 w2 Hb)
          as [[-> _] | [-> _]]; exact Hm. }
      rewrite M_bind_eq, (when_mockgen_eq "cubic" _ _ w2 _ Hm2).
      cbn [eq_str String.eqb Ascii.eqb Bool.eqb]. rewrite read_bind.
      destruct (second_block_returned py_repr _ lv1 w1 w2 Hb)
        as [[-> [corr Hopts]] | [-> Hopts]];
        rewrite Hopts; cbn [load_local]; intros Hup.
      * destruct corr; eexists "second", "ELG_LOP", _;
          (split; [| split; [compute_done | split; [| split; [compute_done |
             split; [| split; [| cbn [String.eqb Ascii.eqb Bool.eqb]]]]]]]);
          try preset_facts; reflexivity.
      * eexists "second", "ELG_LOP", _;
          (split; [| split; [compute_done | split; [| split; [compute_done |
             split; [| split; [| cbn [String.eqb Ascii.eqb Bool.eqb]]]]]]]);
          try preset_facts; reflexivity.
    + rewrite M_bind_eq, (when_mockgen_eq "cubic" _ _ w1 v Hm).
      destruct (eq_str v "cubic") eqn:E3; [| by rewrite read_bind].
      apply eq_str_true in E3. subst v.
      destruct (cubic_block py_repr _ w1) as [w2 [lv1 | e]] eqn:Hb; [| discriminate].
      destruct (cubic_block_returned py_repr (Locals None None) lv1 w1 w2 eq_refl Hb)
        as [-> [Hopts | (z & Hz & Hopts)]];
        rewrite read_bind, Hopts; cbn [load_local]; intros Hup;
        eexists "cubic", "ELG", _;
        (split; [| split; [compute_done | split; [| split; [compute_done |
           split; [| split; [| cbn [String.eqb Ascii.eqb Bool.eqb]]]]]]]);
        try preset_facts; reflexivity.
Qed.

Lemma set_default_config_returned_witness :
  (forall py_repr : list obj -> value -> string,
     set_default_config py_repr [] (new []) = (resolved_second, Return tt)) /\
  exists g label d : string,
    self resolved_second !! "mockgen" = Some (VStr g) /\
    g ∈ ["first"; "second"; "cubic"] /\
    self resolved_second !! "tracer" = Some (VStr label) /\
    label ∈ ["ELG"; "ELG_LOP"] /\
    self resolved_second !! "fdir" = Some (VStr d) /\
    eq_str (VStr d) "" = false /\
    self resolved_second !! "zrange" =
      Some (if String.eqb g "cubic" then VNone else zrange_ELG).
Proof.
  assert (H : forall py_repr : list obj -> value -> string,
             set_default_config py_repr [] (new []) = (resolved_second, Return tt))
    by (intros py_repr; vm_compute; reflexivity).
  split; [exact H |].
  exact (set_default_config_returned (fun _ _ => "") [] (new []) resolved_second
           (H (fun _ _ => ""))).
Defined.

(** ** Positional arguments of the constructor *)

Lemma zip_take_length {A B : Type} (l : list A) (k : list B) :
  zip l (take (length l) k) = zip l k.
Proof.
  revert k. induction l as [| x l IH]; intros [| y k]; cbn; try reflexivity.
  by rewrite IH.
Qed.

(** X14: positional arguments the constructor cannot use are dropped
    without an error: those that follow a first argument that is a
    mapping, and, when the first argument is not a mapping, those beyond
    the nineteen attributes of [_defaults]. *)
Theorem init_drops_positionals
    (a0 : value) (rest : list value) (kwargs : list (string * value)) (w : world) :
  match mapping_items (heap w) a0 with
  | Return _ =>
      __init__with_args (a0 :: rest) kwargs w = __init__with_args [a0] kwargs w
  | Raise _ =>
      __init__with_args (a0 :: rest) kwargs w =
      __init__with_args (take (length _defaults) (a0 :: rest)) kwargs w
  end.
Proof.
  unfold __init__with_args.
  change (take (length _defaults) (a0 :: rest)) with (a0 :: take 18 rest).
  cbv beta iota.
  destruct (mapping_items (heap w) a0) as [kvs | e]; [reflexivity |].
  destruct e; try reflexivity.
  change (a0 :: take 18 rest) with (take (length _defaults.*1) (a0 :: rest)).
  by rewrite zip_take_length.
Qed.

Lemma assoc_elem (k : string) (x : value) (d : list (string * value)) :
  assoc k d = Some x -> (k, x) ∈ d.
Proof.
  induction d as [| [k' x'] d IH]; [discriminate |]. cbn [assoc].
  destruct (String.eqb_spec k' k) as [-> | Hne].
  - intros [= ->]. apply list_elem_of_here.
  - intros H. apply list_elem_of_further. by apply IH.
Qed.

Lemma assoc_dict_set (k k' : string) (v : value) (d : list (string * value)) :
  assoc k (dict_set k' v d) = if String.eqb k' k then Some v else assoc k d.
Proof.
  induction d as [| [k0 x0] d IH]; cbn [dict_set assoc].
  - destruct (String.eqb_spec k' k); reflexivity.
  - destruct (String.eqb_spec k0 k') as [-> | Hne]; cbn [assoc].
    + destruct (String.eqb_spec k' k); reflexivity.
    + rewrite IH. destruct (String.eqb_spec k0 k) as [-> | Hne'].
      * destruct (String.eqb_spec k' k) as [-> | _]; [done | reflexivity].
      * reflexivity.
Qed.

Lemma dict_set_keys (k : string) (v : value) (d : list (string * value)) :
  (dict_set k v d).*1 = d.*1 \/
  ((k ∉ d.*1) /\ (dict_set k v d).*1 = (d.*1 ++ [k])%list).
Proof.
  induction d as [| [k0 x0] d IH]; cbn [dict_set].
  - right. split; [apply not_elem_of_nil | reflexivity].
  - destruct (String.eqb_spec k0 k) as [-> | Hne]; [by left |].
    destruct IH as [IH | [Hn IH]]; rewrite !fmap_cons, IH.
    + by left.
    + right. split; [| reflexivity]. rewrite not_elem_of_cons. by split.
Qed.

Lemma dict_set_NoDup (k : string) (v : value) (d : list (string * value)) :
  NoDup d.*1 -> NoDup (dict_set k v d).*1.
Proof.
  intros Hd. destruct (dict_set_keys k v d) as [-> | [Hn ->]]; [exact Hd |].
  apply NoDup_app. split; [exact Hd | split].
  - intros x Hx Hk. apply list_elem_of_singleton in Hk. by subst.
  - apply NoDup_singleton.
Qed.

Lemma dict_set_Forall (P : string -> value -> Prop) (k : string) (v : value)
    (d : list (string * value)) :
  P k v -> Forall (fun kv => P kv.1 kv.2) d ->
  Forall (fun kv => P kv.1 kv.2) (dict_set k v d).
Proof.
  intros Hk. induction 1 as [| [k0 x0] d Hx Hd IH]; cbn [dict_set].
  - by repeat constructor.
  - destruct (String.eqb_spec k0 k) as [-> | Hne]; constructor; auto.
Qed.

Lemma dict_merge_NoDup (a b : list (string * value)) :
  NoDup a.*1 -> NoDup (dict_merge a b).*1.
Proof.
  revert a. induction b as [| [k v] b IH]; intros a Ha; [exact Ha |].
  apply IH. by apply dict_set_NoDup.
Qed.

Lemma dict_merge_Forall (P : string -> value -> Prop) (a b : list (string * value)) :
  Forall (fun kv => P kv.1 kv.2) a -> Forall (fun kv => P kv.1 kv.2) b ->
  Forall (fun kv => P kv.1 kv.2) (dict_merge a b).
Proof.
  revert a. induction b as [| [k v] b IH]; intros a Ha Hb; [exact Ha |].
  apply Forall_cons in Hb as [Hk Hb]. apply IH; [| exact Hb].
  by apply dict_set_Forall.
Qed.

Lemma assoc_None (k : string) (d : list (string * value)) :
  k ∉ d.*1 -> assoc k d = None.
Proof.
  induction d as [| [k0 x0] d IH]; [reflexivity |].
  rewrite fmap_cons, not_elem_of_cons. intros [Hne Hn]. cbn [assoc].
  destruct (String.eqb_spec k0 k) as [-> | _]; [done | by apply IH].
Qed.

(** In a merge, the second mapping wins. *)
Lemma assoc_dict_merge (k : string) (a b : list (string * value)) :
  NoDup b.*1 ->
  assoc k (dict_merge a b) =
  match assoc k b with
  | Some v => Some v
  | None => assoc k a
  end.
Proof.
  revert a. induction b as [| [k0 v0] b IH]; intros a Hb; [reflexivity |].
  apply NoDup_cons in Hb as [Hn Hb].
  change (dict_merge a ((k0, v0) :: b)) with (dict_merge (dict_set k0 v0 a) b).
  rewrite IH by exact Hb. cbn [assoc]. rewrite assoc_dict_set.
  destruct (String.eqb_spec k0 k) as [-> | Hne]; [| reflexivity].
  by rewrite (assoc_None k b Hn).
Qed.

Lemma assoc_zip (names : list string) (args : list value) (i : nat)
    (name : string) (v : value) :
  NoDup names -> names !! i = Some name -> args !! i = Some v ->
  assoc name (zip names args) = Some v.
Proof.
  revert args i. induction names as [| n names IH]; intros args i Hd Hn Ha.
  { by rewrite lookup_nil in Hn. }
  destruct args as [| a args]; [by rewrite lookup_nil in Ha |].
  apply NoDup_cons in Hd as [Hnn Hd]. cbn [zip zip_with assoc].
  destruct i as [| i]; cbn in Hn, Ha.
  - injection Hn as ->. injection Ha as ->. by rewrite String.eqb_refl.
  - destruct (String.eqb_spec n name) as [-> | _].
    + exfalso. apply Hnn. by eapply list_elem_of_lookup_2.
    + by eapply IH.
Qed.

Lemma zip_Forall (P : string -> value -> Prop) (names : list string) (args : list value) :
  Forall (fun n => forall v, v ∈ args -> P n v) names ->
  Forall (fun kv => P kv.1 kv.2) (zip names args).
Proof.
  revert args. induction names as [| n names IH]; intros [| a args] H;
    try by constructor.
  apply Forall_cons in H as [Hn H]. cbn [zip zip_with]. constructor.
  - apply Hn. apply list_elem_of_here.
  - apply IH. eapply Forall_impl; [exact H |].
    intros n' Hn' v Hv. apply Hn'. by apply list_elem_of_further.
Qed.

Lemma zip_keys_NoDup (names : list string) (args : list value) :
  NoDup names -> NoDup (zip names args).*1.
Proof.
  revert args. induction names as [| n names IH]; intros [| a args] Hd;
    try apply NoDup_nil_2.
  apply NoDup_cons in Hd as [Hn Hd]. cbn [zip zip_with]. rewrite fmap_cons.
  apply NoDup_cons. split; [| by apply IH].
  intros Hin. apply Hn. apply list_elem_of_fmap in Hin as ([k x] & Heq & Hin).
  cbn in Heq. subst k. clear -Hin. revert args Hin.
  induction names as [| n' names IH]; intros [| a' args] Hin;
    try by apply elem_of_nil in Hin.
  cbn [zip zip_with] in Hin. apply elem_of_cons in Hin as [[= -> ->] | Hin].
  - apply list_elem_of_here.
  - apply list_elem_of_further. by eapply IH.
Qed.

Lemma copied_as_is_valid (h : list obj) (v : value) :
  copied_as_is v = true -> valid_value h v.
Proof. by destruct v. Qed.

(** X15: when no positional argument and no keyword value is a list or a
    dict, the constructor returns, the positional arguments are given to the
    attributes in the order of [_defaults], and a keyword wins over the
    positional argument of the same attribute. *)
Theorem init_positional
    (args : list value) (kwargs : list (string * value)) (h : list obj)
    (i : nat) (name : string) (v : value) :
  Forall (fun a => copied_as_is a = true) args ->
  Forall (fun kv => in_defaults kv.1 = true /\ copied_as_is kv.2 = true) kwargs ->
  NoDup kwargs.*1 ->
  _defaults.*1 !! i = Some name ->
  args !! i = Some v ->
  let r := __init__with_args args kwargs (World h ∅) in
  r.2 = Return tt /\
  self r.1 !! name = Some (default v (assoc name kwargs)).
Proof.
  intros Ha Hk Hd Hn Hv r. subst r.
  destruct args as [| a0 rest]; [by rewrite lookup_nil in Hv |].
  assert (Hmap : mapping_items h a0 = Raise TypeError).
  { apply Forall_cons in Ha as [Ha0 _]. by destruct a0. }
  unfold __init__with_args. cbn [heap]. rewrite Hmap.
  set (merged := dict_merge (zip _defaults.*1 (a0 :: rest)) kwargs).
  assert (Hnames : NoDup _defaults.*1) by compute_done.
  assert (HP : Forall (fun kv : string * value =>
                         in_defaults kv.1 = true /\ copied_as_is kv.2 = true) merged).
  { apply (dict_merge_Forall
             (fun k x => in_defaults k = true /\ copied_as_is x = true));
      [| exact Hk].
    apply (zip_Forall (fun k x => in_defaults k = true /\ copied_as_is x = true)).
    rewrite Forall_forall in Ha.
    assert (Hall : Forall (fun n : string => in_defaults n = true) _defaults.*1)
      by repeat constructor.
    eapply Forall_impl; [exact Hall |].
    intros n Hin x Hx. split; [exact Hin | by apply Ha]. }
  assert (Hnd : NoDup merged.*1)
    by (apply dict_merge_NoDup, zip_keys_NoDup, Hnames).
  assert (Hassoc : assoc name merged = Some (default v (assoc name kwargs))).
  { unfold merged. rewrite assoc_dict_merge by exact Hd.
    destruct (assoc name kwargs); [reflexivity |].
    by apply (assoc_zip _ _ i). }
  unfold __init__. rewrite M_bind_eq.
  destruct (update_known_returns _defaults (World h ∅)) as (w1 & Hup1 & _);
    [repeat constructor | repeat constructor |].
  rewrite Hup1.
  destruct (update_known_returns merged w1) as (w' & Hup & _).
  { eapply Forall_impl; [exact HP |]. by intros kv [Hkv _]. }
  { eapply Forall_impl; [exact HP |]. intros kv [_ Hkv]. by apply copied_as_is_valid. }
  rewrite Hup. split; [reflexivity |].
  apply assoc_elem in Hassoc.
  apply (update_lookup_as_is merged w1 w' name _ Hup Hnd Hassoc).
  rewrite Forall_forall in HP. by destruct (HP _ Hassoc).
Qed.

Lemma init_positional_witness :
  let args := [VStr "/data"; VStr "first"; VStr "corr"] in
  let kwargs := [("mockgen", VStr "cubic")] in
  Forall (fun a => copied_as_is a = true) args /\
  Forall (fun kv => in_defaults kv.1 = true /\ copied_as_is kv.2 = true) kwargs /\
  NoDup kwargs.*1 /\
  _defaults.*1 !! 1%nat = Some "mockgen" /\
  args !! 1%nat = Some (VStr "first") /\
  (__init__with_args args kwargs (World [] ∅)).2 = Return tt /\
  self (__init__with_args args kwargs (World [] ∅)).1 !! "mockgen" =
    Some (default (VStr "first") (assoc "mockgen" kwargs)).
Proof.
  assert (Ha : Forall (fun a : value => copied_as_is a = true)
                 [VStr "/data"; VStr "first"; VStr "corr"])
    by repeat constructor.
  assert (Hk : Forall (fun kv : string * value =>
                         in_defaults kv.1 = true /\ copied_as_is kv.2 = true)
                 [("mockgen", VStr "cubic")])
    by repeat constructor.
  assert (Hd : NoDup [("mockgen", VStr "cubic")].*1) by compute_done.
  split; [exact Ha | split; [exact Hk | split; [exact Hd |
    split; [reflexivity | split; [reflexivity |]]]]].
  exact (init_positional _ _ [] 1 "mockgen" (VStr "first") Ha Hk Hd eq_refl eq_refl).
Defined.

(** X16: when the first positional argument is a mapping of known names and
    neither its values nor those of the keywords are lists or dicts, the
    constructor returns, the attributes the mapping names hold its values,
    and a keyword wins over the mapping for the same attribute. *)
Theorem init_mapping
    (l : nat) (kvs : list (string * value)) (rest : list value)
    (kwargs : list (string * value)) (h : list obj) (name : string) (v : value) :
  h !! l = Some (ODict kvs) ->
  Forall (fun kv => in_defaults kv.1 = true /\ copied_as_is kv.2 = true) kvs ->
  NoDup kvs.*1 ->
  Forall (fun kv => in_defaults kv.1 = true /\ copied_as_is kv.2 = true) kwargs ->
  NoDup kwargs.*1 ->
  assoc name kvs = Some v ->
  let r := __init__with_args (VRef l :: rest) kwargs (World h ∅) in
  r.2 = Return tt /\
  self r.1 !! name = Some (default v (assoc name kwargs)).
Proof.
  intros Hl Hkvs Hdk Hk Hd Hv r. subst r.
  unfold __init__with_args, mapping_items, deref. cbn [heap]. rewrite Hl.
  cbn [mbind res_bind].
  set (merged := dict_merge kvs kwargs).
  assert (HP : Forall (fun kv : string * value =>
                         in_defaults kv.1 = true /\ copied_as_is kv.2 = true) merged)
    by exact (dict_merge_Forall
                (fun k x => in_defaults k = true /\ copied_as_is x = true)
                kvs kwargs Hkvs Hk).
  assert (Hnd : NoDup merged.*1) by (by apply dict_merge_NoDup).
  assert (Hassoc : assoc name merged = Some (default v (assoc name kwargs))).
  { unfold merged. rewrite assoc_dict_merge by exact Hd.
    by destruct (assoc name kwargs). }
  unfold __init__. rewrite M_bind_eq.
  destruct (update_known_returns _defaults (World h ∅)) as (w1 & Hup1 & _);
    [repeat constructor | repeat constructor |].
  rewrite Hup1.
  destruct (update_known_returns merged w1) as (w' & Hup & _).
  { eapply Forall_impl; [exact HP |]. by intros kv [Hkv _]. }
  { eapply Forall_impl; [exact HP |]. intros kv [_ Hkv]. by apply copied_as_is_valid. }
  rewrite Hup. split; [reflexivity |].
  apply assoc_elem in Hassoc.
  apply (update_lookup_as_is merged w1 w' name _ Hup Hnd Hassoc).
  rewrite Forall_forall in HP. by destruct (HP _ Hassoc).
Qed.

Lemma init_mapping_witness :
  let kvs := [("tracer", VStr "ELG_LOP"); ("realization", VInt 7)] in
  let kwargs := [("realization", VNone)] in
  mapping_heap !! 0%nat = Some (ODict kvs) /\
  Forall (fun kv => in_defaults kv.1 = true /\ copied_as_is kv.2 = true) kvs /\
  NoDup kvs.*1 /\
  Forall (fun kv => in_defaults kv.1 = true /\ copied_as_is kv.2 = true) kwargs /\
  NoDup kwargs.*1 /\
  assoc "realization" kvs = Some (VInt 7) /\
  (__init__with_args [VRef 0; VStr "ignored"] kwargs (World mapping_heap ∅)).2 =
    Return tt /\
  self (__init__with_args [VRef 0; VStr "ignored"] kwargs (World mapping_heap ∅)).1
    !! "realization" = Some (default (VInt 7) (assoc "realization" kwargs)).
Proof.
  assert (Hkvs : Forall (fun kv : string * value =>
                           in_defaults kv.1 = true /\ copied_as_is kv.2 = true)
                   [("tracer", VStr "ELG_LOP"); ("realization", VInt 7)])
    by repeat constructor.
  assert (Hdk : NoDup [("tracer", VStr "ELG_LOP"); ("realization", VInt 7)].*1)
    by compute_done.
  assert (Hk : Forall (fun kv : string * value =>
                         in_defaults kv.1 = true /\ copied_as_is kv.2 = true)
                 [("realization", VNone)])
    by repeat constructor.
  assert (Hd : NoDup [("realization", VNone)].*1) by compute_done.
  split; [reflexivity | split; [exact Hkvs | split; [exact Hdk | split; [exact Hk |
    split; [exact Hd | split; [reflexivity |]]]]]].
  exact (init_mapping 0 _ [VStr "ignored"] _ mapping_heap "realization" (VInt 7)
           eq_refl Hkvs Hdk Hk Hd eq_refl).
Defined.

(** ** The sculpting attributes of the 'second' generation *)

Lemma with_sculpt_defaults_lookup (w : world) :
  heap (with_sculpt_defaults w) !! length (heap w) =
    Some (OList [VInt 0; VInt 2; VInt 4]) /\
  heap (with_sculpt_defaults w) !! S (length (heap w)) =
    Some (ODict (sculpt_defaults (VRef (length (heap w))))).
Proof.
  unfold with_sculpt_defaults. cbn [heap]. split.
  - by apply list_lookup_middle.
  - rewrite lookup_app_r by lia.
    replace (S (length (heap w)) - length (heap w))%nat with 1%nat by lia.
    reflexivity.
Qed.

(** X17: on a record of generation 'second' with an 'ELG' tracer and a
    string file type that contains 'sculpt' and not 'corr', the record
    [set_default_config] leaves has the sculpting segment
    [_ells024_kobsmax0.4_ktmax0.5_capsig5_difflfac10_analyticcov]: the dict
    it stores is a copy that still reaches the list of multipoles built for
    the preset. *)
Theorem sculpt_segment_after_defaults
    (py_repr : list obj -> value -> string) (w : world) (t f : string) :
  self w !! "mockgen" = Some (VStr "second") ->
  self w !! "tracer" = Some (VStr t) ->
  String.eqb (String.substring 0 3 t) "ELG" = true ->
  self w !! "ftype" = Some (VStr f) ->
  contains_str "corr" f = false ->
  contains_str "sculpt" f = true ->
  sculpt_segment py_repr (set_default_config py_repr [] w).1 =
    Return "_ells024_kobsmax0.4_ktmax0.5_capsig5_difflfac10_analyticcov".
Proof.
  intros Hm Ht Hp Hf Hcorr Hsculpt.
  destruct (set_default_config_second_eq py_repr [] w w t f eq_refl Hm Ht Hp Hf)
    as [_ Heq].
  rewrite Hcorr, Hsculpt in Heq. rewrite Heq. clear Heq.
  destruct (with_sculpt_defaults_lookup w) as [Hells Hdict].
  destruct (update_known (second_preset false (Some (sculpt_defaults_ref w)))
              (with_sculpt_defaults w)) as (w' & Hup & Hpre & _ & Hread).
  { repeat constructor. }
  { compute_done. }
  { repeat constructor. cbn. rewrite length_app. cbn. lia. }
  rewrite Hup. cbn [fst].
  destruct (Hread "sculpt_attrs" (sculpt_defaults_ref w)) as (sa & Hsa & Hcopy).
  { repeat constructor. }
  destruct Hcopy as (l' & -> & _ & Hl' & _). rewrite Hdict in Hl'.
  pose proof (prefix_lookup_Some _ _ _ _ Hells Hpre) as Hells'.
  unfold sculpt_segment. rewrite (getattr_Some _ _ _ Hsa).
  cbn [mbind res_bind is_none]. unfold subscript_str, deref. rewrite Hl'.
  cbn [mbind res_bind sculpt_defaults assoc String.eqb Ascii.eqb Bool.eqb].
  unfold iterate, deref. rewrite Hells'.
  reflexivity.
Qed.

Lemma sculpt_segment_after_defaults_witness :
  self sculpt_record !! "mockgen" = Some (VStr "second") /\
  self sculpt_record !! "tracer" = Some (VStr "ELG") /\
  String.eqb (String.substring 0 3 "ELG") "ELG" = true /\
  self sculpt_record !! "ftype" = Some (VStr "wmatrix_smooth_sculpt") /\
  contains_str "corr" "wmatrix_smooth_sculpt" = false /\
  contains_str "sculpt" "wmatrix_smooth_sculpt" = true /\
  forall py_repr : list obj -> value -> string,
    sculpt_segment py_repr (set_default_config py_repr [] sculpt_record).1 =
      Return "_ells024_kobsmax0.4_ktmax0.5_capsig5_difflfac10_analyticcov".
Proof.
  split; [reflexivity | split; [reflexivity | split; [reflexivity |
    split; [reflexivity | split; [reflexivity | split; [reflexivity |]]]]]].
  intros py_repr.
  exact (sculpt_segment_after_defaults py_repr sculpt_record "ELG"
           "wmatrix_smooth_sculpt" eq_refl eq_refl eq_refl eq_refl eq_refl eq_refl).
Defined.

(** ** A call of [set_default_config] that raises *)

Lemma first_block_raised (py_repr : list obj -> value -> string)
    (lv : locals) (w w' : world) (e : exn) :
  first_block py_repr lv w = (w', Raise e) -> w' = w.
Proof.
  unfold first_block. unfold_methods. intros H.
  destruct (self w !! "tracer") as [tracer |]; [| by injection H].
  destruct (prefix3_eq (heap w) tracer "ELG") as [[|] | e0]; try by injection H.
  destruct (self w !! "ftype") as [ftype |]; [| by injection H].
  destruct (contains (heap w) "corr" ftype) as [[|] | e0]; try discriminate.
  by injection H.
Qed.

Lemma second_block_raised (py_repr : list obj -> value -> string)
    (lv : locals) (w w' : world) (e : exn) :
  second_block py_repr lv w = (w', Raise e) -> w' = w.
Proof.
  unfold second_block. unfold_methods. intros H.
  destruct (self w !! "tracer") as [tracer |]; [| by injection H].
  destruct (prefix3_eq (heap w) tracer "ELG") as [[|] | e0]; try by injection H.
  destruct (self w !! "ftype") as [ftype |] eqn:Hf; [| by injection H].
  destruct (contains (heap w) "corr" ftype) as [[|] | e0]; try discriminate;
    [| by injection H].
  block_simpl H. rewrite Hf in H.
  destruct (contains (heap w) "sculpt" ftype) as [[|] | e0]; block_simpl H;
    try discriminate.
  by injection H.
Qed.

Lemma cubic_block_raised (py_repr : list obj -> value -> string)
    (lv : locals) (w w' : world) (e : exn) :
  cubic_block py_repr lv w = (w', Raise e) -> w' = w.
Proof.
  unfold cubic_block. unfold_methods. intros H.
  destruct (self w !! "tracer") as [tracer |]; [| by injection H].
  destruct (prefix3_eq (heap w) tracer "ELG") as [[|] | e0]; try by injection H.
  destruct (self w !! "z") as [z |] eqn:Hz; [| by injection H].
  block_simpl H. rewrite ?Hz in H. block_simpl H.
  destruct (eq_float z f0_95); block_simpl H; rewrite ?Hz in H; block_simpl H;
    [discriminate |].
  match type of H with
  | context [match ?x with Some _ => _ | None => _ end] => destruct x
  end; [discriminate | by injection H].
Qed.

Lemma preset_update_returns (opts : list (string * value)) (w w' : world) (e : exn) :
  Forall (fun kv => in_defaults kv.1 = true) opts ->
  Forall (fun kv => valid_value (heap w) kv.2) opts ->
  update opts w = (w', Raise e) -> False.
Proof.
  intros Hk Hv Hup.
  destruct (update_known_returns opts w Hk Hv) as (w2 & Hup2 & _). congruence.
Qed.

Ltac preset_returns H :=
  exfalso; apply (preset_update_returns _ _ _ _) in H;
  [ exact H | repeat constructor | repeat constructor ].

Lemma set_default_config_raised_eq
    (py_repr : list obj -> value -> string) (kwargs : list (string * value))
    (w w1 w' : world) (e : exn) :
  update kwargs w = (w1, Return tt) ->
  set_default_config py_repr kwargs w = (w', Raise e) ->
  w' = w1.
Proof.
  intros Hup0. rewrite (set_default_config_after_update py_repr kwargs w w1 Hup0).
  unfold set_default_config. cbn [update]. rewrite M_bind_eq. cbn [mret M_ret].
  rewrite M_bind_eq.
  destruct (self w1 !! "mockgen") as [v |] eqn:Hm.
  2: { unfold when_mockgen. rewrite read_bind. unfold getattr. rewrite Hm.
       by intros [= <- _]. }
  rewrite (when_mockgen_eq "first" _ _ w1 v Hm).
  destruct (eq_str v "first") eqn:E1.
  - apply eq_str_true in E1. subst v.
    destruct (first_block py_repr _ w1) as [w2 [lv1 | e1]] eqn:Hb.
    2: { intros [= <- _]. by apply first_block_raised in Hb. }
    destruct (first_block_returned py_repr _ lv1 w1 w2 Hb) as [-> [corr Hopts]].
    rewrite M_bind_eq, (when_mockgen_eq "second" _ _ w1 _ Hm).
    cbn [eq_str String.eqb Ascii.eqb Bool.eqb].
    rewrite M_bind_eq, (when_mockgen_eq "cubic" _ _ w1 _ Hm).
    cbn [eq_str String.eqb Ascii.eqb Bool.eqb]. rewrite read_bind, Hopts.
    cbn [load_local]. intros Hup. destruct corr; preset_returns Hup.
  - rewrite M_bind_eq, (when_mockgen_eq "second" _ _ w1 v Hm).
    destruct (eq_str v "second") eqn:E2.
    + apply eq_str_true in E2. subst v.
      destruct (second_block py_repr _ w1) as [w2 [lv1 | e1]] eqn:Hb.
      2: { intros [= <- _]. by apply second_block_raised in Hb. }
      assert (Hm2 : self w2 !! "mockgen" = Some (VStr "second")).
      { destruct (second_block_returned py_repr _ lv1 w1 w2 Hb)
          as [[-> _] | [-> _]]; exact Hm. }
      rewrite M_bind_eq, (when_mockgen_eq "cubic" _ _ w2 _ Hm2).
      cbn [eq_str String.eqb Ascii.eqb Bool.eqb]. rewrite read_bind.
      destruct (second_block_returned py_repr _ lv1 w1 w2 Hb)
        as [[-> [corr Hopts]] | [-> Hopts]];
        rewrite Hopts; cbn [load_local]; intros Hup.
      * destruct corr; preset_returns Hup.
      * exfalso. apply (preset_update_returns _ _ _ _) in Hup; [exact Hup | |].
        -- repeat constructor.
        -- repeat constructor. cbn. rewrite length_app. cbn. lia.
    + rewrite M_bind_eq, (when_mockgen_eq "cubic" _ _ w1 v Hm).
      destruct (eq_str v "cubic") eqn:E3.
      2: { rewrite read_bind. by intros [= <- _]. }
      apply eq_str_true in E3. subst v.
      destruct (cubic_block py_repr _ w1) as [w2 [lv1 | e1]] eqn:Hb.
      2: { intros [= <- _]. by apply cubic_block_raised in Hb. }
      destruct (cubic_block_returned py_repr (Locals None None) lv1 w1 w2 eq_refl Hb)
        as [-> [Hopts | (z & Hz & Hopts)]];
        rewrite read_bind, Hopts; cbn [load_local]; intros Hup.
      * preset_returns Hup.
      * exfalso. apply (preset_update_returns _ _ _ _) in Hup; [exact Hup | |].
        -- repeat constructor.
        -- repeat constructor. by destruct z.
Qed.

(** X18: [set_default_config] merges a preset whole or not at all: when the
    keywords were merged and the call raises, the record and the heap are as
    the merge of the keywords left them. *)
Theorem set_default_config_raised
    (py_repr : list obj -> value -> string) (kwargs : list (string * value))
    (w w1 : world) (e : exn) :
  update kwargs w = (w1, Return tt) ->
  (set_default_config py_repr kwargs w).2 = Raise e ->
  (set_default_config py_repr kwargs w).1 = w1.
Proof.
  intros Hup He.
  destruct (set_default_config py_repr kwargs w) as [w' r] eqn:H.
  cbn [fst snd] in *. subst r.
  exact (set_default_config_raised_eq py_repr kwargs w w1 w' e Hup H).
Qed.

Lemma set_default_config_raised_witness :
  update LRG_kwargs (new []) = (LRG_record, Return tt) /\
  forall py_repr : list obj -> value -> string,
    (set_default_config py_repr LRG_kwargs (new [])).2 = Raise (NameError "tracer") /\
    (set_default_config py_repr LRG_kwargs (new [])).1 = LRG_record.
Proof.
  assert (Hup : update LRG_kwargs (new []) = (LRG_record, Return tt))
    by (vm_compute; reflexivity).
  split; [exact Hup |].
  intros py_repr.
  assert (He : (set_default_config py_repr LRG_kwargs (new [])).2 =
               Raise (NameError "tracer"))
    by (vm_compute; reflexivity).
  split; [exact He |].
  exact (set_default_config_raised py_repr LRG_kwargs (new []) LRG_record
           (NameError "tracer") Hup He).
Defined.
